(** * The [postgresql_table] resource of terraform-provider-postgresql

    A shallow embedding of [postgresql/resource_postgresql_table.go]: the
    catalog reader ([columns], [resourcePostgreSQLTableReadImpl],
    [resourcePostgreSQLTableExists]), the positional column differ
    ([alterColumnsIfNeeded]), the DDL synthesizer ([createColumn] and the
    [build*] helpers) and the lifecycle verbs.

    The Go functions act on two mutable objects: the framework's
    [*schema.ResourceData] and the [*sql.DB] handle.  Both are threaded
    through a small state monad whose state also keeps the sequence of calls
    made on the lock and on the database, so that statements about "which SQL
    was issued, and in which order" can be read off the final state.
    Calls to [log.Printf] are not modelled. *)

From Stdlib Require Import String Ascii ZArith List Bool Arith Lia.
From Stdlib Require Import DecimalString Permutation Sorted.
Import ListNotations.

Local Open Scope string_scope.
Local Open Scope list_scope.

Infix "+++" := String.append (right associativity, at level 60).

(** ** Go values *)

(** Go errors as this file produces and inspects them. *)
Inductive GoError : Type :=
| ErrNoRows                                   (* sql.ErrNoRows *)
| DriverError (msg : string)                  (* any other error of database/sql *)
| ErrorsNew (msg : string)                    (* errors.New(msg) *)
| Wrapf (format : string) (err : GoError).    (* errwrap.Wrapf(format, err) *)

(** [err == sql.ErrNoRows] *)
Definition isErrNoRows (e : GoError) : bool :=
  match e with ErrNoRows => true | _ => false end.

(** A function either returns or panics. *)
Inductive Res (A : Type) : Type :=
| Val (a : A)
| Panic (msg : string).
Arguments Val {A} a.
Arguments Panic {A} msg.

(** strconv.Itoa *)
Definition Itoa (n : Z) : string := NilZero.string_of_int (Z.to_int n).

(** strings.ToLower, on the ASCII letters *)
Definition lowerAscii (c : ascii) : ascii :=
  let n := nat_of_ascii c in
  if (65 <=? n)%nat && (n <=? 90)%nat then ascii_of_nat (n + 32) else c.

Fixpoint ToLower (s : string) : string :=
  match s with
  | EmptyString => EmptyString
  | String c rest => String (lowerAscii c) (ToLower rest)
  end.

(** ** Attribute names and queries *)

Definition tableNameAttr : string := "name".
Definition columnAttr : string := "column".
Definition columnNameAttr : string := "name".
Definition columnTypeAttr : string := "type".
Definition columnMaxLengthAttr : string := "max_length".
Definition columnDefaultAttr : string := "default".
Definition columnIsNullAttr : string := "is_null".

Definition tableExistsQuery : string :=
  "SELECT table_name FROM information_schema.tables WHERE table_schema='public' and table_name = $1".

Definition tableDescribeQuery : string :=
  "SELECT table_name FROM information_schema.tables WHERE table_schema='public' and table_name = $1".

Definition LF : string := String "010"%char EmptyString.
Definition TAB : string := String "009"%char EmptyString.

Definition columnsDescribeQuery : string :=
  LF +++
  TAB +++ "SELECT " +++ LF +++
  TAB +++ TAB +++ "column_name as name, " +++ LF +++
  TAB +++ TAB +++ "column_default as default_expr," +++ LF +++
  TAB +++ TAB +++ "is_nullable," +++ LF +++
  TAB +++ TAB +++ "udt_name as column_type," +++ LF +++
  TAB +++ TAB +++ "character_maximum_length as max_length" +++ LF +++
  TAB +++ "FROM information_schema.columns " +++ LF +++
  TAB +++ "WHERE table_name = $1" +++ LF +++
  TAB +++ "ORDER BY ordinal_position" +++ LF +++
  TAB.

(** ** Data model *)

(** One element of the [column] list, a [map[string]interface{}] in the
    source.  The resource schema types every attribute ([name] and [type]
    required strings, [max_length] an int, [default] a string, [is_null] a
    bool), so the type assertions of the source are on values of the right
    type; whether an optional key is in the map stays dynamic, as the source
    tests [found] on each lookup. *)
Record Column : Type := mkColumn {
  columnName : string;
  columnType : string;
  columnMaxLength : option Z;
  columnDefault : option string;
  columnIsNull : option bool
}.

(** [*schema.ResourceData]: the identifier, the new-resource mark, the prior
    and the planned value of both attributes (what [d.GetChange] returns) and
    the values written by [d.Set]. *)
Record ResourceData : Type := mkResourceData {
  rdId : string;
  rdIsNew : bool;
  rdNameOld : string;
  rdNameNew : string;
  rdColumnOld : list Column;
  rdColumnNew : list Column;
  rdNameSet : option string;
  rdColumnSet : option (list Column)
}.

(** One row of the columns query as [rows.Scan] delivers it: the five scanned
    values, or the error of the scan. *)
Record CatalogRow : Type := mkCatalogRow {
  rowName : string;
  rowDefaultExpr : option string;      (* sql.NullString *)
  rowIsNullable : string;
  rowColumnType : string;
  rowMaxLength : option Z              (* sql.NullInt64 *)
}.

Inductive RowScan : Type :=
| ScanOk (r : CatalogRow)
| ScanErr (e : GoError).

(** What [db.Query] returns: on failure a nil [*sql.Rows] and the error,
    otherwise the rows that [rows.Next] walks through, and the error (if
    any) that ended the walk, which [rows.Err] would report once [rows.Next]
    has returned false. *)
Inductive QueryResult : Type :=
| QueryErr (e : GoError)
| QueryRows (rows : list RowScan) (iterErr : option GoError).

(** The calls an operation makes on the catalog lock and on the database. *)
Inductive Event : Type :=
| Lock | Unlock | RLock | RUnlock
| Exec (sql : string)
| QueryRow (query arg : string)
| Query (query arg : string).

Definition isQuery (e : Event) : bool :=
  match e with QueryRow _ _ | Query _ _ => true | _ => false end.

Definition isLockCall (e : Event) : bool :=
  match e with Lock | Unlock | RLock | RUnlock => true | _ => false end.

(** The database behind [*sql.DB], seen through the three calls the resource
    makes.  [dbQueryRow q a] stands for [db.QueryRow(q, a).Scan(&s)]: the
    scanned string, or the error. *)
Class SqlDB (DB : Type) : Type := {
  dbExec : string -> DB -> DB * option GoError;
  dbQueryRow : string -> string -> DB -> DB * (string + GoError);
  dbQuery : string -> string -> DB -> DB * QueryResult
}.

(** The state an operation runs in: the resource data, the database and the
    calls made so far. *)
Record St (DB : Type) : Type := mkSt {
  rd : ResourceData;
  db : DB;
  trace : list Event
}.
Arguments mkSt {DB} rd db trace.
Arguments rd {DB} s.
Arguments db {DB} s.
Arguments trace {DB} s.

(** A scripted database for concrete runs: the [n]-th call of [Exec] fails
    when the script says so, and the two queries answer from the script. *)
Record ScriptDB : Type := mkScriptDB {
  execFailAt : option nat;
  execCount : nat;
  tableRow : string + GoError;
  columnRows : QueryResult
}.

Definition scriptExec (sql : string) (db : ScriptDB) : ScriptDB * option GoError :=
  (mkScriptDB (execFailAt db) (S (execCount db)) (tableRow db) (columnRows db),
   match execFailAt db with
   | Some k => if Nat.eqb k (execCount db) then Some (DriverError "exec failed") else None
   | None => None
   end).

#[global] Instance ScriptDB_SqlDB : SqlDB ScriptDB := {
  dbExec := scriptExec;
  dbQueryRow := fun _ _ db => (db, tableRow db);
  dbQuery := fun _ _ db => (db, columnRows db)
}.

(** A stand-in for pq.QuoteIdentifier in concrete runs: the name between
    double quotes, every double quote in it doubled. *)
Definition dquote : ascii := "034"%char.

Fixpoint doubleQuotes (s : string) : string :=
  match s with
  | EmptyString => EmptyString
  | String c rest =>
      if Ascii.eqb c dquote then String dquote (String dquote (doubleQuotes rest))
      else String c (doubleQuotes rest)
  end.

Definition quoteIdent (s : string) : string :=
  String dquote (doubleQuotes s +++ String dquote EmptyString).

(** ** Pure helpers of the source *)

Definition typeAliases : list (string * string) := [("int4", "int")].

Fixpoint lookupAlias (m : list (string * string)) (k : string) : option string :=
  match m with
  | [] => None
  | (k', v) :: rest => if String.eqb k' k then Some v else lookupAlias rest k
  end.

Definition useTypeAlias (columnType : string) : string :=
  match lookupAlias typeAliases columnType with
  | Some v => v
  | None => columnType
  end.

Definition orDefault (data : option string) (fallback : string) : string :=
  match data with
  | Some s => s
  | None => fallback
  end.

Definition parseIsNullable (data : string) : bool :=
  String.eqb (ToLower data) "yes".

Definition buildColumnMaxLength (column : Column) : string :=
  match columnMaxLength column with
  | Some maxLength =>
      if negb (Z.eqb maxLength 0) then "(" +++ Itoa maxLength +++ ")"
      else EmptyString
  | None => EmptyString
  end.

Definition buildColumnDefault (column : Column) : string :=
  match columnDefault column with
  | Some defaultExpr =>
      if negb (String.eqb defaultExpr EmptyString) then " DEFAULT " +++ defaultExpr
      else EmptyString
  | None => EmptyString
  end.

Definition buildColumnNotNull (column : Column) : string :=
  match columnIsNull column with
  | Some isNull => if negb isNull then " NOT NULL" else EmptyString
  | None => EmptyString
  end.

(** The map that [columns] builds from one scanned row. *)
Definition columnOfRow (r : CatalogRow) : Column :=
  mkColumn (rowName r) (useTypeAlias (rowColumnType r))
           (rowMaxLength r) (rowDefaultExpr r)
           (Some (parseIsNullable (rowIsNullable r))).

(** reflect.DeepEqual on the two attribute types, as [d.HasChange] uses it. *)
Definition option_eqb {A : Type} (eqb : A -> A -> bool) (x y : option A) : bool :=
  match x, y with
  | Some a, Some b => eqb a b
  | None, None => true
  | _, _ => false
  end.

Definition Column_eqb (a b : Column) : bool :=
  String.eqb (columnName a) (columnName b)
  && String.eqb (columnType a) (columnType b)
  && option_eqb Z.eqb (columnMaxLength a) (columnMaxLength b)
  && option_eqb String.eqb (columnDefault a) (columnDefault b)
  && option_eqb Bool.eqb (columnIsNull a) (columnIsNull b).

Fixpoint columns_eqb (xs ys : list Column) : bool :=
  match xs, ys with
  | [], [] => true
  | x :: xs', y :: ys' => Column_eqb x y && columns_eqb xs' ys'
  | _, _ => false
  end.

(** ** Sample data for concrete runs *)

(** Columns as the framework hands them over: every key of the schema is in
    the map, an unset one with the zero value of its type. *)
Definition colId : Column :=
  mkColumn "id" "int" (Some 0%Z) (Some EmptyString) (Some false).
Definition colEmail : Column :=
  mkColumn "email" "varchar" (Some 255%Z) (Some EmptyString) (Some false).
Definition colA : Column :=
  mkColumn "a" "int" (Some 0%Z) (Some EmptyString) (Some true).
Definition colB : Column :=
  mkColumn "b" "text" (Some 0%Z) (Some "'x'") (Some true).

Definition rowId : CatalogRow := mkCatalogRow "id" None "NO" "int4" None.
Definition rowEmail : CatalogRow := mkCatalogRow "email" None "NO" "varchar" (Some 255%Z).

(** An update of table [users] from columns [old] to [new], its name going
    from [users] to [newName]. *)
Definition rdUsers (newName : string) (old new : list Column) : ResourceData :=
  mkResourceData "users" false "users" newName old new None None.

(** A database on which everything succeeds, and which answers the table
    probe with [name] and the columns query with [id] and [email]. *)
Definition dbAnswering (name : string) : ScriptDB :=
  mkScriptDB None 0 (inl name) (QueryRows [ScanOk rowId; ScanOk rowEmail] None).

(** The same database, its [k]-th statement failing. *)
Definition dbFailingAt (k : nat) : ScriptDB :=
  mkScriptDB (Some k) 0 (inl "users") (QueryRows [ScanOk rowId; ScanOk rowEmail] None).

(** A database without the table. *)
Definition dbNoTable : ScriptDB :=
  mkScriptDB None 0 (inr ErrNoRows) (QueryRows [] None).

(** A database on which the table probe succeeds and the columns query
    fails. *)
Definition dbColumnsQueryFails : ScriptDB :=
  mkScriptDB None 0 (inl "users") (QueryErr (DriverError "connection reset by peer")).

(** A database on which the columns query starts and breaks off after the
    first row. *)
Definition dbColumnsWalkFails : ScriptDB :=
  mkScriptDB None 0 (inl "users")
             (QueryRows [ScanOk rowId] (Some (DriverError "unexpected EOF"))).

(** States for the sample runs, no call made yet. *)
Definition stAppend : St ScriptDB :=
  mkSt (rdUsers "users" [colId] [colId; colEmail]) (dbAnswering "users") [].
Definition stRemoval : St ScriptDB :=
  mkSt (rdUsers "users" [colId; colEmail] [colId]) (dbAnswering "users") [].
Definition stReorder : St ScriptDB :=
  mkSt (rdUsers "users" [colA; colB] [colB; colA]) (dbAnswering "users") [].
Definition stRename : St ScriptDB :=
  mkSt (rdUsers "accounts" [colId] [colId; colEmail]) (dbAnswering "accounts") [].
Definition stEmptyName : St ScriptDB :=
  mkSt (rdUsers EmptyString [colId] [colId; colEmail]) (dbAnswering "users") [].
Definition stNoTable : St ScriptDB :=
  mkSt (rdUsers "users" [] []) dbNoTable [].
Definition stSecondFails : St ScriptDB :=
  mkSt (rdUsers "users" [colId] [colId; colEmail; colA; colB]) (dbFailingAt 1) [].
Definition stColumnsQueryFails : St ScriptDB :=
  mkSt (rdUsers "users" [] []) dbColumnsQueryFails [].
Definition stColumnsWalkFails : St ScriptDB :=
  mkSt (rdUsers "users" [] []) dbColumnsWalkFails [].
Definition stCreateFails : St ScriptDB :=
  mkSt (mkResourceData EmptyString true EmptyString "users" [] [colId] None None)
       (dbFailingAt 0) [].

(** A database whose table probe fails, and one whose second row of the
    columns query fails to scan. *)
Definition dbProbeFails : ScriptDB :=
  mkScriptDB None 0 (inr (DriverError "connection refused")) (QueryRows [] None).
Definition dbScanFails : ScriptDB :=
  mkScriptDB None 0 (inl "users")
             (QueryRows [ScanOk rowId; ScanErr (DriverError "unsupported Scan"); ScanOk rowEmail]
                        None).

Definition stProbeFails : St ScriptDB :=
  mkSt (rdUsers "users" [] []) dbProbeFails [].
Definition stScanFails : St ScriptDB :=
  mkSt (rdUsers "users" [] []) dbScanFails [].
Definition stFound : St ScriptDB :=
  mkSt (rdUsers "users" [] []) (dbAnswering "users") [].
Definition stRenameFails : St ScriptDB :=
  mkSt (rdUsers "accounts" [colId] [colId]) (dbFailingAt 0) [].
Definition stRenameOnly : St ScriptDB :=
  mkSt (rdUsers "accounts" [colId] [colId]) (dbAnswering "accounts") [].
Definition stUnchanged : St ScriptDB :=
  mkSt (rdUsers "users" [colId; colEmail] [colId; colEmail]) (dbAnswering "users") [].
Definition stCreate : St ScriptDB :=
  mkSt (mkResourceData EmptyString true EmptyString "users" [] [colId; colEmail] None None)
       (dbAnswering "users") [].

(** No check by the framework on the value set for the column list. *)
Definition acceptColumns : list Column -> option GoError := fun _ => None.

(** ** The resource, over any database *)

Section Resource.

Context {DB : Type} {sqlDB : SqlDB DB}.

Set Default Proof Using "Type".

(** pq.QuoteIdentifier, from the driver package. *)
Variable QuoteIdentifier : string -> string.

(** Whether the framework's [d.Set] refuses a value for the [column] list. *)
Variable columnSetError : list Column -> option GoError.

Definition M (A : Type) : Type := St DB -> Res A * St DB.

Definition ret {A : Type} (a : A) : M A := fun s => (Val a, s).

Definition bind {A B : Type} (m : M A) (k : A -> M B) : M B :=
  fun s =>
    match m s with
    | (Val a, s') => k a s'
    | (Panic msg, s') => (Panic msg, s')
    end.

Definition panic {A : Type} (msg : string) : M A := fun s => (Panic msg, s).

Notation "x <- c1 ;; c2" := (bind c1 (fun x => c2))
  (at level 61, c1 at next level, right associativity).
Notation "c1 ;; c2" := (bind c1 (fun _ => c2))
  (at level 61, right associativity).

Definition emit (e : Event) (s : St DB) : St DB :=
  mkSt (rd s) (db s) (trace s ++ [e]).

Definition withRd (f : ResourceData -> ResourceData) (s : St DB) : St DB :=
  mkSt (f (rd s)) (db s) (trace s).

(** *** The framework's [ResourceData] *)

Definition Id : M string := fun s => (Val (rdId (rd s)), s).

Definition SetId (v : string) : M unit :=
  fun s => (Val tt, withRd (fun d =>
    mkResourceData v (rdIsNew d) (rdNameOld d) (rdNameNew d)
                   (rdColumnOld d) (rdColumnNew d) (rdNameSet d) (rdColumnSet d)) s).

Definition IsNewResource : M bool := fun s => (Val (rdIsNew (rd s)), s).

(** [d.Get(tableNameAttr)]: the written value if any, else the planned one. *)
Definition nameOf (d : ResourceData) : string :=
  match rdNameSet d with Some v => v | None => rdNameNew d end.

Definition columnsOf (d : ResourceData) : list Column :=
  match rdColumnSet d with Some v => v | None => rdColumnNew d end.

Definition GetName : M string := fun s => (Val (nameOf (rd s)), s).

(** [d.GetChange] and [d.HasChange] on the name and on the column list. *)
Definition GetChangeName : M (string * string) :=
  fun s => (Val (rdNameOld (rd s), rdNameNew (rd s)), s).

Definition HasChangeName : M bool :=
  fun s => (Val (negb (String.eqb (rdNameOld (rd s)) (rdNameNew (rd s)))), s).

Definition GetChangeColumn : M (list Column * list Column) :=
  fun s => (Val (rdColumnOld (rd s), rdColumnNew (rd s)), s).

Definition HasChangeColumn : M bool :=
  fun s => (Val (negb (columns_eqb (rdColumnOld (rd s)) (rdColumnNew (rd s)))), s).

(** [d.Set(tableNameAttr, v)], whose result the source drops. *)
Definition SetName (v : string) : M unit :=
  fun s => (Val tt, withRd (fun d =>
    mkResourceData (rdId d) (rdIsNew d) (rdNameOld d) (rdNameNew d)
                   (rdColumnOld d) (rdColumnNew d) (Some v) (rdColumnSet d)) s).

(** [d.Set(columnAttr, v)] *)
Definition SetColumn (v : list Column) : M (option GoError) :=
  fun s =>
    match columnSetError v with
    | Some e => (Val (Some e), s)
    | None => (Val None, withRd (fun d =>
        mkResourceData (rdId d) (rdIsNew d) (rdNameOld d) (rdNameNew d)
                       (rdColumnOld d) (rdColumnNew d) (rdNameSet d) (Some v)) s)
    end.

(** *** The database handle *)

Definition ExecSQL (sql : string) : M (option GoError) :=
  fun s =>
    let (db', err) := dbExec sql (db s) in
    (Val err, mkSt (rd s) db' (trace s ++ [Exec sql])).

Definition QueryRowScan (query arg : string) : M (string + GoError) :=
  fun s =>
    let (db', r) := dbQueryRow query arg (db s) in
    (Val r, mkSt (rd s) db' (trace s ++ [QueryRow query arg])).

Definition RunQuery (query arg : string) : M QueryResult :=
  fun s =>
    let (db', r) := dbQuery query arg (db s) in
    (Val r, mkSt (rd s) db' (trace s ++ [Query query arg])).

(** [c.catalogLock.Lock(); defer c.catalogLock.Unlock()] around a body: the
    deferred call runs when the body returns and when it panics. *)
Definition locked {A : Type} (acquire release : Event) (body : M A) : M A :=
  fun s =>
    let (r, s') := body (emit acquire s) in
    (r, emit release s').

(** *** Catalog reader *)

(** The loop of [columns] over the rows. *)
Fixpoint scanRows (rows : list RowScan) (columns : list Column)
  : list Column * option GoError :=
  match rows with
  | [] => (columns, None)
  | ScanErr err :: _ => (columns, Some err)
  | ScanOk r :: rest => scanRows rest (columns ++ [columnOfRow r])
  end.

(** [rows, _ := db.Query(...)] drops the error of the query; [rows.Next()] on
    the nil [*sql.Rows] of a failed query dereferences nil.  After the loop
    [rows.Err()] is not consulted. *)
Definition columns (tableName : string) : M (list Column * option GoError) :=
  rows <- RunQuery columnsDescribeQuery tableName ;;
  match rows with
  | QueryErr _ => panic "invalid memory address or nil pointer dereference"
  | QueryRows rs _ => ret (scanRows rs [])
  end.

Definition resourcePostgreSQLTableReadImpl : M (option GoError) :=
  tableID <- Id ;;
  r <- QueryRowScan tableDescribeQuery tableID ;;
  match r with
  | inr err =>
      if isErrNoRows err then
        SetId EmptyString ;;
        ret None
      else
        ret (Some (Wrapf ("Error reading TABLE (" +++ tableID +++ "): {{err}}") err))
  | inl tableName =>
      SetName tableName ;;
      SetId tableName ;;
      cr <- columns tableName ;;
      match snd cr with
      | Some err =>
          ret (Some (Wrapf ("Error reading columns TABLE (" +++ tableID +++ "): {{err}}") err))
      | None =>
          serr <- SetColumn (fst cr) ;;
          match serr with
          | Some err =>
              ret (Some (Wrapf ("Error setting columns TABLE (" +++ tableID +++ "): {{err}}") err))
          | None => ret None
          end
      end
  end.

Definition resourcePostgreSQLTableRead : M (option GoError) :=
  locked RLock RUnlock resourcePostgreSQLTableReadImpl.

Definition resourcePostgreSQLTableExists : M (bool * option GoError) :=
  locked RLock RUnlock (
    id <- Id ;;
    r <- QueryRowScan tableExistsQuery id ;;
    match r with
    | inr err =>
        if isErrNoRows err then ret (false, None)
        else ret (false, Some err)
    | inl _ => ret (true, None)
    end).

(** *** DDL synthesizer and reconciler *)

Definition renameTableSQL (old new : string) : string :=
  "ALTER TABLE " +++ QuoteIdentifier old +++ " RENAME TO " +++ QuoteIdentifier new.

Definition renameTableIfNeeded : M (option GoError) :=
  changed <- HasChangeName ;;
  if negb changed then ret None
  else
    on <- GetChangeName ;;
    let old := fst on in
    let new := snd on in
    if String.eqb new EmptyString then
      ret (Some (ErrorsNew "Error setting table name to an empty string"))
    else
      err <- ExecSQL (renameTableSQL old new) ;;
      match err with
      | Some e => ret (Some (Wrapf "Error updating table NAME: {{err}}" e))
      | None =>
          SetId new ;;
          ret None
      end.

(** The statement that [createColumn] formats. *)
Definition createColumnSQL (tableName : string) (column : Column) : string :=
  "ALTER TABLE " +++ tableName +++ " ADD COLUMN " +++
  QuoteIdentifier (columnName column) +++ " " +++ columnType column +++
  buildColumnMaxLength column +++
  buildColumnDefault column +++
  buildColumnNotNull column.

Definition createColumn (tableName : string) (column : Column) : M (option GoError) :=
  err <- ExecSQL (createColumnSQL tableName column) ;;
  match err with
  | Some e => ret (Some (Wrapf "Error updating table NAME: {{err}}" e))
  | None => ret None
  end.

(** The [for i, newColumnRaw := range new] loop, from index [i] on. *)
Fixpoint alterColumnsLoop (oldLen i : nat) (new : list Column) : M (option GoError) :=
  match new with
  | [] => ret None
  | newColumn :: rest =>
      let isNewColumn := (oldLen <=? i)%nat in
      if isNewColumn then
        id <- Id ;;
        err <- createColumn id newColumn ;;
        match err with
        | Some e => ret (Some e)
        | None => alterColumnsLoop oldLen (S i) rest
        end
      else alterColumnsLoop oldLen (S i) rest
  end.

Definition alterColumnsIfNeeded : M (option GoError) :=
  changed <- HasChangeColumn ;;
  if negb changed then ret None
  else
    on <- GetChangeColumn ;;
    alterColumnsLoop (length (fst on)) 0 (snd on).

Definition resourcePostgreSQLTableUpdateImpl : M (option GoError) :=
  isNew <- IsNewResource ;;
  rerr <- (if negb isNew then renameTableIfNeeded else ret None) ;;
  match rerr with
  | Some e => ret (Some e)
  | None =>
      aerr <- alterColumnsIfNeeded ;;
      match aerr with
      | Some e => ret (Some e)
      | None => resourcePostgreSQLTableReadImpl
      end
  end.

Definition resourcePostgreSQLTableUpdate : M (option GoError) :=
  locked Lock Unlock resourcePostgreSQLTableUpdateImpl.

Definition createTableSQL (tableName : string) : string :=
  "CREATE TABLE " +++ QuoteIdentifier tableName +++ " ()".

Definition resourcePostgreSQLTableCreate : M (option GoError) :=
  locked Lock Unlock (
    tableName <- GetName ;;
    err <- ExecSQL (createTableSQL tableName) ;;
    match err with
    | Some e =>
        ret (Some (Wrapf ("Error creating table " +++ tableName +++ ": {{err}}") e))
    | None =>
        SetId tableName ;;
        resourcePostgreSQLTableUpdateImpl
    end).

Definition resourcePostgreSQLTableDelete : M (option GoError) :=
  locked Lock Unlock (
    SetId EmptyString ;;
    ret None).

(** ** The differ and its application, as the specification words them *)

(** "For each index [i] in [newColumns], if [i >= length oldColumns], emit
    [AddColumn (newColumns[i])]; otherwise emit nothing for that index."
    Each operation is kept with its index. *)
Definition diffColumns (oldColumns newColumns : list Column) : list (nat * Column) :=
  filter (fun ic => (length oldColumns <=? fst ic)%nat)
         (combine (seq 0 (length newColumns)) newColumns).

(** "Apply every [AddColumn] operation in order", one statement each, and
    stop at the first failure. *)
Fixpoint applyAddColumns (ops : list Column) : M (option GoError) :=
  match ops with
  | [] => ret None
  | c :: rest =>
      id <- Id ;;
      err <- createColumn id c ;;
      match err with
      | Some e => ret (Some e)
      | None => applyAddColumns rest
      end
  end.

(** The add-column statements of an update of [oldColumns] to [newColumns]
    on table [tableName]. *)
Definition addColumnStatements (tableName : string) (oldColumns newColumns : list Column)
  : list string :=
  map (fun ic => createColumnSQL tableName (snd ic)) (diffColumns oldColumns newColumns).

(** An update renames when the resource is not new, its name changed and
    the new name is not empty; it rejects the change to an empty name. *)
Definition renames (d : ResourceData) : bool :=
  negb (rdIsNew d) && negb (String.eqb (rdNameOld d) (rdNameNew d))
  && negb (String.eqb (rdNameNew d) EmptyString).

Definition renameRejected (d : ResourceData) : bool :=
  negb (rdIsNew d) && negb (String.eqb (rdNameOld d) (rdNameNew d))
  && String.eqb (rdNameNew d) EmptyString.

(** The rename statement of an update, if it has one. *)
Definition renameStatements (d : ResourceData) : list string :=
  if renames d then [renameTableSQL (rdNameOld d) (rdNameNew d)] else [].

(** The identifier that the column statements of an update address. *)
Definition currentId (d : ResourceData) : string :=
  if renames d then rdNameNew d else rdId d.

(** The first step of [resourcePostgreSQLTableUpdateImpl]. *)
Definition renamePhase : M (option GoError) :=
  isNew <- IsNewResource ;;
  if negb isNew then renameTableIfNeeded else ret None.

(** Running statements one after the other: the database they leave when
    every one of them succeeds. *)
Fixpoint execAll (stmts : list string) (d : DB) : option DB :=
  match stmts with
  | [] => Some d
  | q :: rest =>
      match dbExec q d with
      | (d', None) => execAll rest d'
      | (_, Some _) => None
      end
  end.

(** What [d.Set] leaves in the resource data after a read of table
    [tableName] with columns [cols]. *)
Definition observed (d : ResourceData) (tableName : string) (cols : list Column)
  : ResourceData :=
  mkResourceData tableName (rdIsNew d) (rdNameOld d) (rdNameNew d)
                 (rdColumnOld d) (rdColumnNew d) (Some tableName) (Some cols).

Definition withId (d : ResourceData) (v : string) : ResourceData :=
  mkResourceData v (rdIsNew d) (rdNameOld d) (rdNameNew d)
                 (rdColumnOld d) (rdColumnNew d) (rdNameSet d) (rdColumnSet d).

(** A verb holds the lock throughout when its calls are the acquisition,
    then calls that are not on the lock, then the release. *)
Definition holdsLock (acquire release : Event) (before after : list Event) : Prop :=
  exists calls : list Event,
    after = before ++ acquire :: calls ++ [release]
    /\ Forall (fun e => isLockCall e = false) calls.

(** ** Properties *)

(** *** Lists and the positional diff *)

Lemma columns_eqb_length (xs ys : list Column) :
  columns_eqb xs ys = true -> length xs = length ys.
Proof.
  revert ys.
  induction xs as [|x xs IH]; intros [|y ys] H; simpl in *; try discriminate; auto.
  apply andb_true_iff in H as [_ H]. f_equal. now apply IH.
Qed.

Lemma diff_from_skipn (n i : nat) (l : list Column) :
  map snd (filter (fun ic => (n <=? fst ic)%nat) (combine (seq i (length l)) l))
  = skipn (n - i) l.
Proof.
  revert i.
  induction l as [|c l IH]; intros i; simpl.
  - now rewrite skipn_nil.
  - destruct (Nat.leb_spec n i) as [Hle|Hlt]; simpl.
    + rewrite IH.
      replace (n - i) with 0 by lia.
      replace (n - S i) with 0 by lia.
      reflexivity.
    + rewrite IH.
      replace (n - i) with (S (n - S i)) by lia.
      reflexivity.
Qed.

Lemma diffColumns_skipn (old new : list Column) :
  map snd (diffColumns old new) = skipn (length old) new.
Proof.
  unfold diffColumns. rewrite diff_from_skipn. now rewrite Nat.sub_0_r.
Qed.

Lemma filter_index_nil (n i : nat) (l : list Column) :
  i + length l <= n ->
  filter (fun ic => (n <=? fst ic)%nat) (combine (seq i (length l)) l) = [].
Proof.
  revert i.
  induction l as [|c l IH]; intros i H; simpl in *; auto.
  destruct (Nat.leb_spec n i) as [Hle|Hlt]; [lia|].
  apply IH. lia.
Qed.

Lemma diffColumns_nil (old new : list Column) :
  length new <= length old -> diffColumns old new = [].
Proof.
  intros H. unfold diffColumns. apply filter_index_nil. lia.
Qed.

Lemma in_combine_seq (i : nat) (l : list Column) (j : nat) (c : Column) :
  In (j, c) (combine (seq i (length l)) l) <-> i <= j /\ nth_error l (j - i) = Some c.
Proof.
  revert i.
  induction l as [|x l IH]; intros i; simpl.
  - split; [tauto|]. intros [_ H]. destruct (j - i); discriminate.
  - rewrite IH. split.
    + intros [H|[Hle H]].
      * inversion H; subst. split; [lia|]. now rewrite Nat.sub_diag.
      * split; [lia|]. replace (j - i) with (S (j - S i)) by lia. exact H.
    + intros [Hle H].
      destruct (Nat.eq_dec i j) as [->|Hne].
      * rewrite Nat.sub_diag in H. simpl in H. left. congruence.
      * right. split; [lia|].
        replace (j - i) with (S (j - S i)) in H by lia. exact H.
Qed.

Lemma diffColumns_index (old new : list Column) (i : nat) (c : Column) :
  In (i, c) (diffColumns old new) <-> length old <= i /\ nth_error new i = Some c.
Proof.
  clear columnSetError.
  unfold diffColumns. rewrite filter_In, in_combine_seq. simpl.
  rewrite Nat.leb_le, Nat.sub_0_r. intuition lia.
Qed.

Lemma filter_seq_sorted (n i : nat) (l : list Column) :
  StronglySorted lt
    (map fst (filter (fun ic => (n <=? fst ic)%nat) (combine (seq i (length l)) l))).
Proof.
  revert i.
  induction l as [|c l IH]; intros i; simpl.
  - constructor.
  - destruct (n <=? i)%nat; simpl; [|apply IH].
    constructor; [apply IH|].
    apply Forall_forall. intros j Hj.
    apply in_map_iff in Hj as [[j' c'] [Hj Hin]]. simpl in Hj. subst j'.
    apply filter_In in Hin as [Hin _].
    apply in_combine_seq in Hin. lia.
Qed.

(** *** Running the add-column statements *)

Lemma alterColumnsLoop_apply (n i : nat) (new : list Column) (s : St DB) :
  alterColumnsLoop n i new s
  = applyAddColumns
      (map snd (filter (fun ic => (n <=? fst ic)%nat) (combine (seq i (length new)) new))) s.
Proof.
  revert i s.
  induction new as [|c new IH]; intros i s; simpl; [reflexivity|].
  destruct (n <=? i)%nat; simpl.
  - unfold bind. simpl.
    destruct (createColumn (rdId (rd s)) c s) as [[[e|]|msg] s1]; auto.
  - apply IH.
Qed.

Lemma alterColumnsIfNeeded_apply (s : St DB) :
  alterColumnsIfNeeded s
  = applyAddColumns (map snd (diffColumns (rdColumnOld (rd s)) (rdColumnNew (rd s)))) s.
Proof.
  unfold alterColumnsIfNeeded, bind, HasChangeColumn, GetChangeColumn. simpl.
  destruct (columns_eqb (rdColumnOld (rd s)) (rdColumnNew (rd s))) eqn:E; simpl.
  - apply columns_eqb_length in E.
    rewrite diffColumns_nil by lia. reflexivity.
  - apply alterColumnsLoop_apply.
Qed.

Lemma createColumn_run (tableName : string) (c : Column) (s : St DB) :
  createColumn tableName c s
  = (Val (match snd (dbExec (createColumnSQL tableName c) (db s)) with
          | Some e => Some (Wrapf "Error updating table NAME: {{err}}" e)
          | None => None
          end),
     mkSt (rd s) (fst (dbExec (createColumnSQL tableName c) (db s)))
          (trace s ++ [Exec (createColumnSQL tableName c)])).
Proof.
  unfold createColumn, bind, ExecSQL.
  destruct (dbExec (createColumnSQL tableName c) (db s)) as [d' [e|]]; reflexivity.
Qed.

Lemma applyAddColumns_ok (ops : list Column) (s : St DB) (db' : DB) :
  execAll (map (createColumnSQL (rdId (rd s))) ops) (db s) = Some db' ->
  applyAddColumns ops s
  = (Val None,
     mkSt (rd s) db' (trace s ++ map Exec (map (createColumnSQL (rdId (rd s))) ops))).
Proof.
  revert s.
  induction ops as [|c ops IH]; intros s H; simpl in *.
  - injection H as <-. rewrite app_nil_r. now destruct s.
  - unfold bind, Id. rewrite createColumn_run.
    destruct (dbExec (createColumnSQL (rdId (rd s)) c) (db s)) as [d1 [e|]];
      simpl in *; [discriminate|].
    rewrite (IH (mkSt (rd s) d1 (trace s ++ [Exec (createColumnSQL (rdId (rd s)) c)])) H).
    simpl. now rewrite <- app_assoc.
Qed.

Lemma applyAddColumns_fail (ops : list Column) (s : St DB)
      (pre : list string) (stmt : string) (post : list string)
      (db1 db2 : DB) (e : GoError) :
  map (createColumnSQL (rdId (rd s))) ops = pre ++ stmt :: post ->
  execAll pre (db s) = Some db1 ->
  dbExec stmt db1 = (db2, Some e) ->
  applyAddColumns ops s
  = (Val (Some (Wrapf "Error updating table NAME: {{err}}" e)),
     mkSt (rd s) db2 (trace s ++ map Exec (pre ++ [stmt]))).
Proof.
  revert s pre.
  induction ops as [|c ops IH]; intros s pre Hsplit Hpre Hfail; simpl in *.
  - destruct pre; discriminate.
  - unfold bind, Id. rewrite createColumn_run.
    destruct pre as [|q pre]; simpl in *.
    + injection Hsplit as Hq _. injection Hpre as <-.
      rewrite Hq, Hfail. reflexivity.
    + injection Hsplit as Hq Hrest. rewrite Hq.
      destruct (dbExec q (db s)) as [d1 [e1|]]; simpl in *; [discriminate|].
      rewrite (IH (mkSt (rd s) d1 (trace s ++ [Exec q])) pre Hrest Hpre Hfail).
      simpl. now rewrite <- app_assoc.
Qed.

(** Whatever the database answers, the statements issued are an initial
    segment of the add-column statements, the resource data is untouched and
    the loop does not panic; it returns no error only after the last one. *)
Lemma applyAddColumns_prefix (ops : list Column) (s : St DB) :
  exists (k : nat) (r : option GoError) (db' : DB),
    applyAddColumns ops s
    = (Val r, mkSt (rd s) db'
                   (trace s ++ map Exec (firstn k (map (createColumnSQL (rdId (rd s))) ops))))
    /\ k <= length ops
    /\ (r = None -> k = length ops
                    /\ execAll (map (createColumnSQL (rdId (rd s))) ops) (db s) = Some db').
Proof.
  revert s.
  induction ops as [|c ops IH]; intros s; simpl.
  - exists 0, None, (db s). simpl. rewrite app_nil_r. destruct s; auto.
  - unfold bind, Id. rewrite createColumn_run.
    destruct (dbExec (createColumnSQL (rdId (rd s)) c) (db s)) as [d1 [e|]] eqn:E; simpl.
    + exists 1, (Some (Wrapf "Error updating table NAME: {{err}}" e)), d1.
      simpl. repeat split; try lia; discriminate.
    + destruct (IH (mkSt (rd s) d1 (trace s ++ [Exec (createColumnSQL (rdId (rd s)) c)])))
        as (k & r & db' & Hrun & Hk & Hr).
      simpl in *.
      exists (S k), r, db'. rewrite Hrun. simpl. rewrite <- app_assoc. simpl.
      repeat split; try lia; destruct (Hr H); auto.
Qed.

Lemma alterColumnsIfNeeded_ok (s : St DB) (db' : DB) :
  execAll (addColumnStatements (rdId (rd s)) (rdColumnOld (rd s)) (rdColumnNew (rd s)))
          (db s) = Some db' ->
  alterColumnsIfNeeded s
  = (Val None,
     mkSt (rd s) db'
          (trace s ++ map Exec (addColumnStatements (rdId (rd s)) (rdColumnOld (rd s))
                                                    (rdColumnNew (rd s))))).
Proof.
  intros H. rewrite alterColumnsIfNeeded_apply.
  unfold addColumnStatements in *.
  rewrite <- (map_map snd (createColumnSQL (rdId (rd s)))) in *.
  now apply applyAddColumns_ok.
Qed.

(** *** The column differ *)

(** C1. The column differ is append-only and strictly positional.  For every
    pair of column lists, the update applies the operations of the positional
    diff, in its order: an add-column operation exactly for the indices [i]
    of the new list with [i >= length old], by increasing index, and nothing
    for a smaller index.  When every statement succeeds these are the
    statements issued.  When the new list is no longer than the old one (a
    removal), or is a reordering of it, nothing is issued and the state is
    left as it was. *)
Theorem column_differ_append_only_positional (s : St DB) :
  alterColumnsIfNeeded s
  = applyAddColumns (map snd (diffColumns (rdColumnOld (rd s)) (rdColumnNew (rd s)))) s
  /\ (forall i c, In (i, c) (diffColumns (rdColumnOld (rd s)) (rdColumnNew (rd s)))
                  <-> length (rdColumnOld (rd s)) <= i
                      /\ nth_error (rdColumnNew (rd s)) i = Some c)
  /\ StronglySorted lt (map fst (diffColumns (rdColumnOld (rd s)) (rdColumnNew (rd s))))
  /\ (forall db',
        execAll (addColumnStatements (rdId (rd s)) (rdColumnOld (rd s)) (rdColumnNew (rd s)))
                (db s) = Some db' ->
        alterColumnsIfNeeded s
        = (Val None,
           mkSt (rd s) db'
                (trace s ++ map Exec (addColumnStatements (rdId (rd s)) (rdColumnOld (rd s))
                                                          (rdColumnNew (rd s))))))
  /\ (length (rdColumnNew (rd s)) <= length (rdColumnOld (rd s)) ->
      alterColumnsIfNeeded s = (Val None, s))
  /\ (Permutation (rdColumnOld (rd s)) (rdColumnNew (rd s)) ->
      alterColumnsIfNeeded s = (Val None, s)).
Proof.
  assert (Hnil : length (rdColumnNew (rd s)) <= length (rdColumnOld (rd s)) ->
                 alterColumnsIfNeeded s = (Val None, s)).
  { intros H. rewrite alterColumnsIfNeeded_apply.
    now rewrite (diffColumns_nil _ _ H). }
  split; [apply alterColumnsIfNeeded_apply|].
  split; [apply diffColumns_index|].
  split; [apply filter_seq_sorted|].
  split; [|split; [exact Hnil|]].
  - intros db' H. now apply alterColumnsIfNeeded_ok.
  - intros H. apply Hnil. apply Permutation_length in H. lia.
Qed.

(** *** The add-column statement *)

(** C2. For every column descriptor the add-column statement is
    [ALTER TABLE <name> ADD COLUMN <quoted column name> <type>] followed by
    [(<n>)] exactly when [max_length] is present and not zero, by
    [ DEFAULT <expr>] exactly when [default] is present and not empty, and by
    [ NOT NULL] exactly when [is_null] is false.  The column name goes
    through the identifier quoting, the table name is put in as it is.  This
    is the statement that [createColumn] executes. *)
Theorem createColumn_statement (tableName : string) (c : Column) :
  exists ml df nn : string,
    createColumnSQL tableName c
    = "ALTER TABLE " +++ tableName +++ " ADD COLUMN " +++
      QuoteIdentifier (columnName c) +++ " " +++ columnType c +++ ml +++ df +++ nn
    /\ ((exists n, columnMaxLength c = Some n /\ n <> 0%Z /\ ml = "(" +++ Itoa n +++ ")")
        \/ (~ (exists n, columnMaxLength c = Some n /\ n <> 0%Z) /\ ml = EmptyString))
    /\ ((exists e, columnDefault c = Some e /\ e <> EmptyString /\ df = " DEFAULT " +++ e)
        \/ (~ (exists e, columnDefault c = Some e /\ e <> EmptyString) /\ df = EmptyString))
    /\ ((columnIsNull c = Some false /\ nn = " NOT NULL")
        \/ (columnIsNull c <> Some false /\ nn = EmptyString))
    /\ (forall s : St DB,
          trace (snd (createColumn tableName c s))
          = trace s ++ [Exec (createColumnSQL tableName c)]).
Proof.
  exists (buildColumnMaxLength c), (buildColumnDefault c), (buildColumnNotNull c).
  split; [reflexivity|].
  split; [|split; [|split]].
  - unfold buildColumnMaxLength.
    destruct (columnMaxLength c) as [n|].
    + destruct (Z.eqb_spec n 0) as [->|Hn]; simpl.
      * right. split; [|reflexivity]. intros (m & Hm & Hz). congruence.
      * left. exists n. auto.
    + right. split; [|reflexivity]. intros (m & Hm & _). discriminate.
  - unfold buildColumnDefault.
    destruct (columnDefault c) as [e|].
    + destruct (String.eqb_spec e EmptyString) as [->|He]; simpl.
      * right. split; [|reflexivity]. intros (m & Hm & Hz). congruence.
      * left. exists e. auto.
    + right. split; [|reflexivity]. intros (m & Hm & _). discriminate.
  - unfold buildColumnNotNull.
    destruct (columnIsNull c) as [[|]|]; simpl.
    + right. split; [discriminate|reflexivity].
    + left. auto.
    + right. split; [discriminate|reflexivity].
  - intros s. now rewrite createColumn_run.
Qed.

(** *** Rename, column statements and read-back inside an update *)

Lemma execAll_app (a b : list string) (d : DB) :
  execAll (a ++ b) d
  = match execAll a d with Some d' => execAll b d' | None => None end.
Proof.
  revert d.
  induction a as [|q a IH]; intros d; simpl; [reflexivity|].
  destruct (dbExec q d) as [d' [e|]]; auto.
Qed.

Lemma withId_same (d : ResourceData) : withId d (rdId d) = d.
Proof. now destruct d. Qed.

Lemma St_eta (s : St DB) : mkSt (rd s) (db s) (trace s) = s.
Proof. now destruct s. Qed.

(** The four ways the rename step can go. *)
Lemma renamePhase_cases (s : St DB) :
  let d := rd s in
  let sql := renameTableSQL (rdNameOld d) (rdNameNew d) in
  (renames d = false /\ renameRejected d = false /\ renamePhase s = (Val None, s))
  \/ (renames d = false /\ renameRejected d = true
      /\ renamePhase s
         = (Val (Some (ErrorsNew "Error setting table name to an empty string")), s))
  \/ (renames d = true /\ renameRejected d = false
      /\ exists db',
           (dbExec sql (db s) = (db', None)
            /\ renamePhase s
               = (Val None, mkSt (withId d (rdNameNew d)) db' (trace s ++ [Exec sql])))
           \/ (exists e,
                 dbExec sql (db s) = (db', Some e)
                 /\ renamePhase s
                    = (Val (Some (Wrapf "Error updating table NAME: {{err}}" e)),
                       mkSt d db' (trace s ++ [Exec sql])))).
Proof.
  intros d sql. subst d sql.
  unfold renamePhase, renames, renameRejected, bind, IsNewResource.
  destruct (rdIsNew (rd s)); simpl; [left; auto|].
  unfold renameTableIfNeeded, bind, HasChangeName, GetChangeName. simpl.
  destruct (String.eqb (rdNameOld (rd s)) (rdNameNew (rd s))); simpl; [left; auto|].
  destruct (String.eqb (rdNameNew (rd s)) EmptyString); simpl; [right; left; auto|].
  right; right. split; [reflexivity|]. split; [reflexivity|].
  unfold ExecSQL.
  destruct (dbExec (renameTableSQL (rdNameOld (rd s)) (rdNameNew (rd s))) (db s))
    as [db' [e|]] eqn:E; exists db'.
  - right. exists e. auto.
  - left. auto.
Qed.

Lemma updateImpl_unfold (s : St DB) :
  resourcePostgreSQLTableUpdateImpl s
  = match renamePhase s with
    | (Val (Some e), s1) => (Val (Some e), s1)
    | (Val None, s1) =>
        match alterColumnsIfNeeded s1 with
        | (Val (Some e), s2) => (Val (Some e), s2)
        | (Val None, s2) => resourcePostgreSQLTableReadImpl s2
        | (Panic msg, s2) => (Panic msg, s2)
        end
    | (Panic msg, s1) => (Panic msg, s1)
    end.
Proof.
  unfold resourcePostgreSQLTableUpdateImpl, renamePhase, bind, IsNewResource.
  destruct (rdIsNew (rd s)); simpl.
  - destruct (alterColumnsIfNeeded s) as [[[e|]|msg] s2]; reflexivity.
  - destruct (renameTableIfNeeded s) as [[[e|]|msg] s1]; try reflexivity.
    destruct (alterColumnsIfNeeded s1) as [[[e|]|msg] s2]; reflexivity.
Qed.

(** A read that finds the table and scans every row. *)
Lemma readImpl_found (s : St DB) (db2 db3 : DB) (tableName : string)
      (rows : list RowScan) (iterErr : option GoError) (cols : list Column) :
  dbQueryRow tableDescribeQuery (rdId (rd s)) (db s) = (db2, inl tableName) ->
  dbQuery columnsDescribeQuery tableName db2 = (db3, QueryRows rows iterErr) ->
  scanRows rows [] = (cols, None) ->
  columnSetError cols = None ->
  resourcePostgreSQLTableReadImpl s
  = (Val None,
     mkSt (observed (rd s) tableName cols) db3
          (trace s ++ [QueryRow tableDescribeQuery (rdId (rd s));
                       Query columnsDescribeQuery tableName])).
Proof.
  intros Hrow Hq Hscan Hset.
  unfold resourcePostgreSQLTableReadImpl, bind, Id, QueryRowScan.
  rewrite Hrow. simpl.
  unfold columns, bind, RunQuery. simpl. rewrite Hq. simpl.
  rewrite Hscan. simpl.
  unfold SetColumn. rewrite Hset. simpl.
  unfold withRd, observed. simpl. now rewrite <- app_assoc.
Qed.

(** A read only queries, however it ends. *)
Lemma readImpl_reads (s : St DB) :
  exists reads : list Event,
    trace (snd (resourcePostgreSQLTableReadImpl s)) = trace s ++ reads
    /\ Forall (fun e => isQuery e = true) reads.
Proof.
  unfold resourcePostgreSQLTableReadImpl, bind, Id, QueryRowScan.
  destruct (dbQueryRow tableDescribeQuery (rdId (rd s)) (db s)) as [db2 [tableName|err]].
  - simpl. unfold columns, bind, RunQuery. simpl.
    destruct (dbQuery columnsDescribeQuery tableName db2) as [db3 [e|rows ie]]; simpl.
    + exists [QueryRow tableDescribeQuery (rdId (rd s)); Query columnsDescribeQuery tableName].
      rewrite <- app_assoc. split; [reflexivity|]. repeat constructor.
    + exists [QueryRow tableDescribeQuery (rdId (rd s)); Query columnsDescribeQuery tableName].
      destruct (scanRows rows []) as [cols [e|]]; simpl.
      * rewrite <- app_assoc. split; [reflexivity|]. repeat constructor.
      * unfold SetColumn. destruct (columnSetError cols); simpl;
          rewrite <- app_assoc; (split; [reflexivity|]); repeat constructor.
  - exists [QueryRow tableDescribeQuery (rdId (rd s))].
    destruct (isErrNoRows err); simpl; (split; [reflexivity|]); repeat constructor.
Qed.

Lemma addColumnStatements_map (tableName : string) (old new : list Column) :
  map (createColumnSQL tableName) (map snd (diffColumns old new))
  = addColumnStatements tableName old new.
Proof. unfold addColumnStatements. now rewrite map_map. Qed.

(** The column statements and the read-back that follow the rename step. *)
Lemma columns_then_read_trace (s1 : St DB) :
  exists (k : nat) (reads : list Event),
    trace (snd (match alterColumnsIfNeeded s1 with
                | (Val (Some e), s2) => (Val (Some e), s2)
                | (Val None, s2) => resourcePostgreSQLTableReadImpl s2
                | (Panic msg, s2) => (Panic msg, s2)
                end))
    = trace s1
      ++ map Exec (firstn k (addColumnStatements (rdId (rd s1)) (rdColumnOld (rd s1))
                                                 (rdColumnNew (rd s1))))
      ++ reads
    /\ Forall (fun e => isQuery e = true) reads.
Proof.
  rewrite alterColumnsIfNeeded_apply.
  destruct (applyAddColumns_prefix
              (map snd (diffColumns (rdColumnOld (rd s1)) (rdColumnNew (rd s1)))) s1)
    as (k & r & db' & Hrun & _ & _).
  rewrite Hrun, addColumnStatements_map. clear Hrun.
  destruct r as [e|].
  - exists k, []. simpl. rewrite app_nil_r. split; [reflexivity|constructor].
  - match goal with
    | |- context [resourcePostgreSQLTableReadImpl ?s2] =>
        destruct (readImpl_reads s2) as (reads & Htr & Hreads)
    end.
    exists k, reads. rewrite Htr. simpl. rewrite <- app_assoc. auto.
Qed.

Lemma renames_true (d : ResourceData) :
  renames d = true ->
  rdIsNew d = false /\ rdNameOld d <> rdNameNew d /\ rdNameNew d <> EmptyString.
Proof.
  unfold renames. intros H.
  apply andb_true_iff in H as [H H3]. apply andb_true_iff in H as [H1 H2].
  apply negb_true_iff in H1, H2, H3.
  apply String.eqb_neq in H2, H3. auto.
Qed.

(** The calls of an update, whatever the database answers: at most the
    rename statement, then an initial segment of the add-column statements,
    then queries only. *)
Lemma updateImpl_calls (s : St DB) :
  exists (ren cols : list string) (reads : list Event),
    trace (snd (resourcePostgreSQLTableUpdateImpl s))
    = trace s ++ map Exec ren ++ map Exec cols ++ reads
    /\ (ren = []
        \/ (ren = [renameTableSQL (rdNameOld (rd s)) (rdNameNew (rd s))]
            /\ rdIsNew (rd s) = false /\ rdNameOld (rd s) <> rdNameNew (rd s)))
    /\ (exists k,
          cols = firstn k (addColumnStatements
                             (match ren with [] => rdId (rd s) | _ => rdNameNew (rd s) end)
                             (rdColumnOld (rd s)) (rdColumnNew (rd s))))
    /\ Forall (fun e => isQuery e = true) reads.
Proof.
  rewrite updateImpl_unfold.
  destruct (renamePhase_cases s)
    as [(_ & _ & Hp) | [(_ & _ & Hp) | (Hren & _ & db' & [(_ & Hp) | (e & _ & Hp)])]];
    cbv zeta in Hp; rewrite Hp.
  - destruct (columns_then_read_trace s) as (k & reads & Htr & Hreads).
    exists [], (firstn k (addColumnStatements (rdId (rd s)) (rdColumnOld (rd s))
                                              (rdColumnNew (rd s)))), reads.
    rewrite Htr. simpl. repeat split; eauto.
  - exists [], [], []. simpl. rewrite app_nil_r.
    repeat split; auto. exists 0. reflexivity.
  - match goal with
    | |- context [alterColumnsIfNeeded ?s1] =>
        destruct (columns_then_read_trace s1) as (k & reads & Htr & Hreads)
    end.
    simpl in Htr.
    destruct (renames_true _ Hren) as (Hnew & Hne & _).
    exists [renameTableSQL (rdNameOld (rd s)) (rdNameNew (rd s))],
      (firstn k (addColumnStatements (rdNameNew (rd s)) (rdColumnOld (rd s))
                                     (rdColumnNew (rd s)))), reads.
    rewrite Htr. simpl. rewrite <- app_assoc. simpl.
    repeat split; eauto.
  - destruct (renames_true _ Hren) as (Hnew & Hne & _).
    exists [renameTableSQL (rdNameOld (rd s)) (rdNameNew (rd s))], [], [].
    simpl. repeat split; auto. exists 0. reflexivity.
Qed.

(** *** The update *)

(** C3. Within every update, the rename statement (issued only when the
    resource is not new and its name changed) comes before every add-column
    statement, the add-column statements address the table by the identifier
    current at that point (the new name after a rename), and the reads come
    after all statements.  When every statement succeeds and the table is
    found, the table and its columns are read back from the catalog and the
    name, the identifier and the column list of the resource data are
    overwritten with what was read. *)
Theorem update_renames_then_adds_columns_then_reads_back (s : St DB) :
  (exists (ren cols : list string) (reads : list Event),
     trace (snd (resourcePostgreSQLTableUpdateImpl s))
     = trace s ++ map Exec ren ++ map Exec cols ++ reads
     /\ (ren = []
         \/ (ren = [renameTableSQL (rdNameOld (rd s)) (rdNameNew (rd s))]
             /\ rdIsNew (rd s) = false /\ rdNameOld (rd s) <> rdNameNew (rd s)))
     /\ (exists k,
           cols = firstn k (addColumnStatements
                              (match ren with [] => rdId (rd s) | _ => rdNameNew (rd s) end)
                              (rdColumnOld (rd s)) (rdColumnNew (rd s))))
     /\ Forall (fun e => isQuery e = true) reads)
  /\ (forall (db1 db2 db3 : DB) (tableName : string)
             (rows : list RowScan) (iterErr : option GoError) (cols : list Column),
        renameRejected (rd s) = false ->
        execAll (renameStatements (rd s)
                 ++ addColumnStatements (currentId (rd s))
                                        (rdColumnOld (rd s)) (rdColumnNew (rd s)))
                (db s) = Some db1 ->
        dbQueryRow tableDescribeQuery (currentId (rd s)) db1 = (db2, inl tableName) ->
        dbQuery columnsDescribeQuery tableName db2 = (db3, QueryRows rows iterErr) ->
        scanRows rows [] = (cols, None) ->
        columnSetError cols = None ->
        resourcePostgreSQLTableUpdateImpl s
        = (Val None,
           mkSt (observed (rd s) tableName cols) db3
                (trace s
                 ++ map Exec (renameStatements (rd s)
                              ++ addColumnStatements (currentId (rd s))
                                                     (rdColumnOld (rd s)) (rdColumnNew (rd s)))
                 ++ [QueryRow tableDescribeQuery (currentId (rd s));
                     Query columnsDescribeQuery tableName]))
        /\ nameOf (observed (rd s) tableName cols) = tableName
        /\ rdId (observed (rd s) tableName cols) = tableName
        /\ columnsOf (observed (rd s) tableName cols) = cols).
Proof.
  split; [apply updateImpl_calls|].
  intros db1 db2 db3 tableName rows iterErr cols Hrej Hexec Hrow Hq Hscan Hset.
  split; [|repeat split].
  rewrite updateImpl_unfold.
  unfold renameStatements, currentId in *.
  destruct (renamePhase_cases s)
    as [(Hren & _ & Hp) | [(_ & Hr & _) | (Hren & _ & db' & [(He & Hp) | (e & He & _)])]];
    cbv zeta in *; try congruence; rewrite Hren in *; simpl in Hexec.
  - rewrite Hp.
    rewrite (alterColumnsIfNeeded_ok s db1 Hexec).
    match goal with
    | |- context [resourcePostgreSQLTableReadImpl ?s2] =>
        rewrite (readImpl_found s2 db2 db3 tableName rows iterErr cols
                                Hrow Hq Hscan Hset)
    end.
    simpl. now rewrite <- app_assoc.
  - rewrite Hp. rewrite He in Hexec.
    match goal with
    | |- context [alterColumnsIfNeeded ?s1] =>
        rewrite (alterColumnsIfNeeded_ok s1 db1 Hexec)
    end.
    match goal with
    | |- context [resourcePostgreSQLTableReadImpl ?s2] =>
        rewrite (readImpl_found s2 db2 db3 tableName rows iterErr cols
                                Hrow Hq Hscan Hset)
    end.
    simpl. rewrite <- !app_assoc. reflexivity.
  - rewrite He in Hexec. discriminate.
Qed.

(** C4. An update whose name changed to the empty string fails with the
    validation error before any SQL: the only calls are taking and releasing
    the lock, the database is as it was, and the resource data, the
    identifier with it, is unchanged.  The resource data is as the framework
    builds it: a resource marked new has no prior state, so its prior name
    is empty (and Update is called on resources that are not marked new). *)
Theorem update_to_empty_name_is_rejected (s : St DB) :
  (rdIsNew (rd s) = true -> rdNameOld (rd s) = EmptyString) ->
  rdNameOld (rd s) <> rdNameNew (rd s) ->
  rdNameNew (rd s) = EmptyString ->
  resourcePostgreSQLTableUpdate s
  = (Val (Some (ErrorsNew "Error setting table name to an empty string")),
     mkSt (rd s) (db s) (trace s ++ [Lock; Unlock]))
  /\ resourcePostgreSQLTableUpdateImpl s
     = (Val (Some (ErrorsNew "Error setting table name to an empty string")), s).
Proof.
  intros Hinv Hne Hempty.
  assert (Hnew : rdIsNew (rd s) = false).
  { destruct (rdIsNew (rd s)); [|reflexivity].
    exfalso. apply Hne. rewrite Hempty. now apply Hinv. }
  clear Hinv.
  assert (Himpl : forall s0 : St DB, rd s0 = rd s ->
            resourcePostgreSQLTableUpdateImpl s0
            = (Val (Some (ErrorsNew "Error setting table name to an empty string")), s0)).
  { intros s0 Hrd. rewrite updateImpl_unfold.
    destruct (renamePhase_cases s0)
      as [(_ & Hr & _) | [(_ & _ & Hp) | (_ & Hr & _)]];
      cbv zeta in *; [| now rewrite Hp |];
      unfold renameRejected in Hr; rewrite Hrd, Hnew, Hempty in Hr;
      apply String.eqb_neq in Hne; rewrite Hempty in Hne; rewrite Hne in Hr;
      discriminate. }
  split; [|now apply Himpl].
  unfold resourcePostgreSQLTableUpdate, locked.
  rewrite Himpl by reflexivity.
  unfold emit. simpl. now rewrite <- app_assoc.
Qed.

(** *** Absent tables *)

(** C5. A probe that finds no row is not an error.  [Exists] then returns
    false and no error, leaving the resource data as it was; [Read] returns
    no error and clears the identifier, every other field of the resource
    data being left as it was. *)
Theorem no_rows_is_absent_not_an_error (s : St DB) :
  (forall db' : DB,
     dbQueryRow tableExistsQuery (rdId (rd s)) (db s) = (db', inr ErrNoRows) ->
     resourcePostgreSQLTableExists s
     = (Val (false, None),
        mkSt (rd s) db'
             (trace s ++ [RLock; QueryRow tableExistsQuery (rdId (rd s)); RUnlock])))
  /\ (forall db' : DB,
        dbQueryRow tableDescribeQuery (rdId (rd s)) (db s) = (db', inr ErrNoRows) ->
        resourcePostgreSQLTableRead s
        = (Val None,
           mkSt (withId (rd s) EmptyString) db'
                (trace s ++ [RLock; QueryRow tableDescribeQuery (rdId (rd s)); RUnlock]))).
Proof.
  split; intros db' H.
  - unfold resourcePostgreSQLTableExists, locked, bind, Id, QueryRowScan, emit. simpl.
    rewrite H. simpl. now rewrite <- !app_assoc.
  - unfold resourcePostgreSQLTableRead, locked, resourcePostgreSQLTableReadImpl,
      bind, Id, QueryRowScan, emit. simpl.
    rewrite H. simpl. unfold withRd, withId. simpl. now rewrite <- !app_assoc.
Qed.

(** *** Delete *)

(** C6. Delete is logical only: in every state it clears the identifier,
    makes no call on the database (which is left as it was) and returns no
    error. *)
Theorem delete_clears_identifier_only (s : St DB) :
  resourcePostgreSQLTableDelete s
  = (Val None, mkSt (withId (rd s) EmptyString) (db s) (trace s ++ [Lock; Unlock])).
Proof.
  unfold resourcePostgreSQLTableDelete, locked, bind, SetId, ret, emit, withRd, withId.
  simpl. now rewrite <- app_assoc.
Qed.

(** *** Failures *)

(** C7. The column additions are one statement per appended column, in the
    order of the declared list.  If one of them fails after the statements
    before it succeeded, the column step and the update around it return
    that error wrapped; the calls made are the statements up to the failing
    one and nothing after it (no later statement, no compensating
    statement, no read-back), and the database is the one those statements
    left. *)
Theorem add_column_failure_stops_without_rollback (s : St DB) :
  (forall tableName,
     addColumnStatements tableName (rdColumnOld (rd s)) (rdColumnNew (rd s))
     = map (createColumnSQL tableName) (skipn (length (rdColumnOld (rd s))) (rdColumnNew (rd s))))
  /\ (forall (pre : list string) (stmt : string) (post : list string)
             (db1 db2 : DB) (e : GoError),
        addColumnStatements (rdId (rd s)) (rdColumnOld (rd s)) (rdColumnNew (rd s))
        = pre ++ stmt :: post ->
        execAll pre (db s) = Some db1 ->
        dbExec stmt db1 = (db2, Some e) ->
        alterColumnsIfNeeded s
        = (Val (Some (Wrapf "Error updating table NAME: {{err}}" e)),
           mkSt (rd s) db2 (trace s ++ map Exec (pre ++ [stmt]))))
  /\ (forall (pre : list string) (stmt : string) (post : list string)
             (db0 db1 db2 : DB) (e : GoError),
        renameRejected (rd s) = false ->
        execAll (renameStatements (rd s)) (db s) = Some db0 ->
        addColumnStatements (currentId (rd s)) (rdColumnOld (rd s)) (rdColumnNew (rd s))
        = pre ++ stmt :: post ->
        execAll pre db0 = Some db1 ->
        dbExec stmt db1 = (db2, Some e) ->
        resourcePostgreSQLTableUpdateImpl s
        = (Val (Some (Wrapf "Error updating table NAME: {{err}}" e)),
           mkSt (withId (rd s) (currentId (rd s))) db2
                (trace s ++ map Exec (renameStatements (rd s) ++ pre ++ [stmt])))).
Proof.
  assert (Hcol : forall (s1 : St DB) pre stmt post db1 db2 e,
            addColumnStatements (rdId (rd s1)) (rdColumnOld (rd s1)) (rdColumnNew (rd s1))
            = pre ++ stmt :: post ->
            execAll pre (db s1) = Some db1 ->
            dbExec stmt db1 = (db2, Some e) ->
            alterColumnsIfNeeded s1
            = (Val (Some (Wrapf "Error updating table NAME: {{err}}" e)),
               mkSt (rd s1) db2 (trace s1 ++ map Exec (pre ++ [stmt])))).
  { intros s1 pre stmt post db1 db2 e Hsplit Hpre Hfail.
    rewrite alterColumnsIfNeeded_apply.
    rewrite <- addColumnStatements_map in Hsplit.
    exact (applyAddColumns_fail _ s1 pre stmt post db1 db2 e Hsplit Hpre Hfail). }
  split; [|split].
  - intros tableName. rewrite <- addColumnStatements_map. now rewrite diffColumns_skipn.
  - apply Hcol.
  - intros pre stmt post db0 db1 db2 e Hrej Hren Hsplit Hpre Hfail.
    rewrite updateImpl_unfold.
    unfold renameStatements, currentId in *.
    destruct (renamePhase_cases s)
      as [(Hr & _ & Hp) | [(_ & Hr & _) | (Hr & _ & db' & [(He & Hp) | (e' & He & _)])]];
      cbv zeta in *; try congruence; rewrite Hr in *; simpl in Hren.
    + injection Hren as <-. rewrite Hp.
      rewrite (Hcol s pre stmt post db1 db2 e Hsplit Hpre Hfail).
      now rewrite withId_same.
    + rewrite He in Hren. injection Hren as <-. rewrite Hp.
      match goal with
      | |- context [alterColumnsIfNeeded ?s1] =>
          rewrite (Hcol s1 pre stmt post db1 db2 e Hsplit Hpre Hfail)
      end.
      simpl. now rewrite <- app_assoc.
    + rewrite He in Hren. discriminate.
Qed.

(** C10. When the CREATE TABLE statement fails, Create returns the error
    wrapped with the table name in its message; the resource data, the
    identifier with it, is as it was, and the only call on the database is
    that statement: no rename, no column statement, no read. *)
Theorem create_failure_leaves_identifier_unset (s : St DB) (db' : DB) (e : GoError) :
  dbExec (createTableSQL (nameOf (rd s))) (db s) = (db', Some e) ->
  resourcePostgreSQLTableCreate s
  = (Val (Some (Wrapf ("Error creating table " +++ nameOf (rd s) +++ ": {{err}}") e)),
     mkSt (rd s) db'
          (trace s ++ [Lock; Exec (createTableSQL (nameOf (rd s))); Unlock])).
Proof.
  intros H.
  unfold resourcePostgreSQLTableCreate, locked, bind, GetName, ExecSQL, emit. simpl.
  rewrite H. simpl. now rewrite <- !app_assoc.
Qed.

(** *** The columns query *)

(** The part of the error handling of [columns] that is there: the error of
    the first row that fails to scan is returned, with the columns before
    it. *)
Lemma columns_returns_scan_error (tableName : string) (s : St DB) (db' : DB)
      (pre : list CatalogRow) (e : GoError) (post : list RowScan)
      (iterErr : option GoError) :
  dbQuery columnsDescribeQuery tableName (db s)
  = (db', QueryRows (map ScanOk pre ++ ScanErr e :: post) iterErr) ->
  columns tableName s
  = (Val (map columnOfRow pre, Some e),
     mkSt (rd s) db' (trace s ++ [Query columnsDescribeQuery tableName])).
Proof.
  intros H.
  assert (G : forall acc, scanRows (map ScanOk pre ++ ScanErr e :: post) acc
                          = (acc ++ map columnOfRow pre, Some e)).
  { clear H. induction pre as [|r pre IH]; intros acc; simpl.
    - now rewrite app_nil_r.
    - rewrite IH. now rewrite <- app_assoc. }
  unfold columns, bind, RunQuery. rewrite H. simpl. unfold ret.
  now rewrite G.
Qed.

Lemma scanRows_all_ok (pre : list CatalogRow) (acc : list Column) :
  scanRows (map ScanOk pre) acc = (acc ++ map columnOfRow pre, None).
Proof.
  revert acc.
  induction pre as [|r pre IH]; intros acc; simpl.
  - now rewrite app_nil_r.
  - rewrite IH. now rewrite <- app_assoc.
Qed.

(** C8, as the code has it.  An error of the columns query is not returned
    by [columns].  When the query itself fails, the error is dropped and the
    walk over the nil rows panics.  When the query breaks off while its rows
    are walked, [columns] returns the rows read so far and no error. *)
Theorem columns_query_error_is_not_returned (tableName : string) (s : St DB) :
  (forall (db' : DB) (e : GoError),
     dbQuery columnsDescribeQuery tableName (db s) = (db', QueryErr e) ->
     columns tableName s
     = (Panic "invalid memory address or nil pointer dereference",
        mkSt (rd s) db' (trace s ++ [Query columnsDescribeQuery tableName]))
     /\ (forall r s', columns tableName s <> (Val (r, Some e), s')))
  /\ (forall (db' : DB) (pre : list CatalogRow) (e : GoError),
        dbQuery columnsDescribeQuery tableName (db s)
        = (db', QueryRows (map ScanOk pre) (Some e)) ->
        columns tableName s
        = (Val (map columnOfRow pre, None),
           mkSt (rd s) db' (trace s ++ [Query columnsDescribeQuery tableName]))).
Proof.
  split.
  - intros db' e H.
    assert (G : columns tableName s
                = (Panic "invalid memory address or nil pointer dereference",
                   mkSt (rd s) db' (trace s ++ [Query columnsDescribeQuery tableName]))).
    { unfold columns, bind, RunQuery. rewrite H. reflexivity. }
    split; [exact G|].
    intros r s'. rewrite G. discriminate.
  - intros db' pre e H.
    unfold columns, bind, RunQuery. rewrite H. simpl. unfold ret.
    now rewrite scanRows_all_ok.
Qed.

(** *** The lock around each verb *)

Lemma locked_holdsLock {A : Type} (acquire release : Event) (body : M A) (s : St DB) :
  (forall s0 : St DB, exists calls : list Event,
      trace (snd (body s0)) = trace s0 ++ calls
      /\ Forall (fun e => isLockCall e = false) calls) ->
  holdsLock acquire release (trace s) (trace (snd (locked acquire release body s))).
Proof.
  intros Hbody.
  destruct (Hbody (emit acquire s)) as (calls & Htr & Hcalls).
  exists calls. split; [|exact Hcalls].
  unfold locked.
  destruct (body (emit acquire s)) as [r s'].
  simpl in *. rewrite Htr. now rewrite <- !app_assoc.
Qed.

Lemma queries_not_lock (evs : list Event) :
  Forall (fun e => isQuery e = true) evs -> Forall (fun e => isLockCall e = false) evs.
Proof.
  intros H. eapply Forall_impl; [|exact H].
  intros [| | | |q|q a|q a]; simpl; congruence.
Qed.

Lemma execs_not_lock (stmts : list string) :
  Forall (fun e => isLockCall e = false) (map Exec stmts).
Proof.
  induction stmts; simpl; constructor; auto.
Qed.

Lemma updateImpl_no_lock_call (s : St DB) :
  exists calls : list Event,
    trace (snd (resourcePostgreSQLTableUpdateImpl s)) = trace s ++ calls
    /\ Forall (fun e => isLockCall e = false) calls.
Proof.
  destruct (updateImpl_calls s) as (ren & cols & reads & Htr & _ & _ & Hreads).
  exists (map Exec ren ++ map Exec cols ++ reads). split; [exact Htr|].
  repeat (apply Forall_app; split); auto using execs_not_lock, queries_not_lock.
Qed.

(** X16. Create, Update and Delete take the lock exclusively, Read and
    Exists take it shared; each makes all of its database calls between
    taking the lock and releasing it, and releases it however its body ends,
    a panic included. *)
Lemma verbs_hold_the_lock (s : St DB) :
  holdsLock Lock Unlock (trace s) (trace (snd (resourcePostgreSQLTableCreate s)))
  /\ holdsLock Lock Unlock (trace s) (trace (snd (resourcePostgreSQLTableUpdate s)))
  /\ holdsLock Lock Unlock (trace s) (trace (snd (resourcePostgreSQLTableDelete s)))
  /\ holdsLock RLock RUnlock (trace s) (trace (snd (resourcePostgreSQLTableRead s)))
  /\ holdsLock RLock RUnlock (trace s) (trace (snd (resourcePostgreSQLTableExists s))).
Proof.
  repeat split; apply locked_holdsLock; intros s0.
  - unfold bind, GetName, ExecSQL.
    destruct (dbExec (createTableSQL (nameOf (rd s0))) (db s0)) as [db' [e|]]; simpl.
    + exists [Exec (createTableSQL (nameOf (rd s0)))]. split; [reflexivity|].
      repeat constructor.
    + match goal with
      | |- context [resourcePostgreSQLTableUpdateImpl ?s1] =>
          destruct (updateImpl_no_lock_call s1) as (calls & Htr & Hcalls)
      end.
      exists (Exec (createTableSQL (nameOf (rd s0))) :: calls).
      rewrite Htr. simpl. rewrite <- app_assoc. split; [reflexivity|].
      constructor; auto.
  - apply updateImpl_no_lock_call.
  - exists []. simpl. rewrite app_nil_r. split; [reflexivity|constructor].
  - destruct (readImpl_reads s0) as (reads & Htr & Hreads).
    exists reads. split; [exact Htr|]. now apply queries_not_lock.
  - unfold bind, Id, QueryRowScan.
    destruct (dbQueryRow tableExistsQuery (rdId (rd s0)) (db s0)) as [db' [name|err]];
      [|destruct (isErrNoRows err)]; simpl;
      exists [QueryRow tableExistsQuery (rdId (rd s0))];
      (split; [reflexivity|repeat constructor]).
Qed.

(** ** Further properties of the resource *)

(** *** Exists *)

(** X1. Whatever the database answers, Exists leaves the resource data as
    it was and makes one call on the database, the probe for the identifier,
    under the shared lock.  It answers true exactly when the probe finds a
    row, and hands an error other than [sql.ErrNoRows] back as it is, not
    wrapped, with false. *)
Theorem exists_probes_once_and_keeps_resource_data (s : St DB) :
  rd (snd (resourcePostgreSQLTableExists s)) = rd s
  /\ db (snd (resourcePostgreSQLTableExists s))
     = fst (dbQueryRow tableExistsQuery (rdId (rd s)) (db s))
  /\ trace (snd (resourcePostgreSQLTableExists s))
     = trace s ++ [RLock; QueryRow tableExistsQuery (rdId (rd s)); RUnlock]
  /\ (fst (resourcePostgreSQLTableExists s) = Val (true, None)
      <-> exists name,
            snd (dbQueryRow tableExistsQuery (rdId (rd s)) (db s)) = inl name)
  /\ (forall err,
        snd (dbQueryRow tableExistsQuery (rdId (rd s)) (db s)) = inr err ->
        err <> ErrNoRows ->
        fst (resourcePostgreSQLTableExists s) = Val (false, Some err)).
Proof.
  unfold resourcePostgreSQLTableExists, locked, bind, Id, QueryRowScan, emit. simpl.
  destruct (dbQueryRow tableExistsQuery (rdId (rd s)) (db s)) as [db' [name|err]]; simpl.
  - rewrite <- !app_assoc. simpl.
    repeat split; eauto. intros err H. discriminate.
  - destruct err; simpl; rewrite <- !app_assoc; simpl;
      (repeat split; [discriminate | intros [name H]; discriminate
                     | intros err' H Hne; injection H as <-; congruence]).
Qed.

(** *** Read *)

(** X2. When the probe of Read fails with an error other than
    [sql.ErrNoRows], Read returns that error wrapped with the identifier in
    the message; the resource data is as it was and the columns are not
    queried. *)
Theorem read_probe_error_is_wrapped (s : St DB) (db' : DB) (err : GoError) :
  dbQueryRow tableDescribeQuery (rdId (rd s)) (db s) = (db', inr err) ->
  err <> ErrNoRows ->
  resourcePostgreSQLTableRead s
  = (Val (Some (Wrapf ("Error reading TABLE (" +++ rdId (rd s) +++ "): {{err}}") err)),
     mkSt (rd s) db'
          (trace s ++ [RLock; QueryRow tableDescribeQuery (rdId (rd s)); RUnlock])).
Proof.
  intros H Hne.
  unfold resourcePostgreSQLTableRead, locked, resourcePostgreSQLTableReadImpl,
    bind, Id, QueryRowScan, emit. simpl.
  rewrite H. simpl.
  destruct err; simpl; try congruence; now rewrite <- !app_assoc.
Qed.

(** X3. When the probe finds the table and every row of the columns query
    scans, Read overwrites the name and the identifier with the name the
    catalog gave and the column list with one column per row, in the order
    of the rows; the prior and the planned values are not touched, and the
    calls are the probe and the columns query for the catalog's name. *)
Theorem read_overwrites_with_catalog (s : St DB) (db2 db3 : DB) (tableName : string)
        (rows : list CatalogRow) (iterErr : option GoError) :
  dbQueryRow tableDescribeQuery (rdId (rd s)) (db s) = (db2, inl tableName) ->
  dbQuery columnsDescribeQuery tableName db2 = (db3, QueryRows (map ScanOk rows) iterErr) ->
  columnSetError (map columnOfRow rows) = None ->
  resourcePostgreSQLTableRead s
  = (Val None,
     mkSt (mkResourceData tableName (rdIsNew (rd s)) (rdNameOld (rd s)) (rdNameNew (rd s))
                          (rdColumnOld (rd s)) (rdColumnNew (rd s))
                          (Some tableName) (Some (map columnOfRow rows)))
          db3
          (trace s ++ [RLock; QueryRow tableDescribeQuery (rdId (rd s));
                       Query columnsDescribeQuery tableName; RUnlock])).
Proof.
  intros Hrow Hq Hset.
  unfold resourcePostgreSQLTableRead, locked.
  rewrite (readImpl_found (emit RLock s) db2 db3 tableName (map ScanOk rows) iterErr
                          (map columnOfRow rows) Hrow Hq
                          (scanRows_all_ok rows []) Hset).
  unfold emit, observed. simpl. now rewrite <- !app_assoc.
Qed.

(** X4. When a row of the columns query fails to scan, Read returns the scan
    error wrapped, the message naming the identifier Read started with.  By
    then the name and the identifier are already overwritten with the
    catalog's name; the column list is not written. *)
Theorem read_scan_error_after_name_is_set (s : St DB) (db2 db3 : DB) (tableName : string)
        (pre : list CatalogRow) (e : GoError) (post : list RowScan)
        (iterErr : option GoError) :
  dbQueryRow tableDescribeQuery (rdId (rd s)) (db s) = (db2, inl tableName) ->
  dbQuery columnsDescribeQuery tableName db2
  = (db3, QueryRows (map ScanOk pre ++ ScanErr e :: post) iterErr) ->
  resourcePostgreSQLTableRead s
  = (Val (Some (Wrapf ("Error reading columns TABLE (" +++ rdId (rd s) +++ "): {{err}}") e)),
     mkSt (mkResourceData tableName (rdIsNew (rd s)) (rdNameOld (rd s)) (rdNameNew (rd s))
                          (rdColumnOld (rd s)) (rdColumnNew (rd s))
                          (Some tableName) (rdColumnSet (rd s)))
          db3
          (trace s ++ [RLock; QueryRow tableDescribeQuery (rdId (rd s));
                       Query columnsDescribeQuery tableName; RUnlock])).
Proof.
  intros Hrow Hq.
  unfold resourcePostgreSQLTableRead, locked, resourcePostgreSQLTableReadImpl,
    bind, Id, QueryRowScan, emit. simpl.
  rewrite Hrow. simpl.
  match goal with
  | |- context [columns tableName ?s1] =>
      rewrite (columns_returns_scan_error tableName s1 db3 pre e post iterErr Hq)
  end.
  simpl. now rewrite <- !app_assoc.
Qed.

(** *** The catalog reader's helpers *)

Lemma useTypeAlias_cases (t : string) :
  (t = "int4" /\ useTypeAlias t = "int") \/ (t <> "int4" /\ useTypeAlias t = t).
Proof.
  unfold useTypeAlias, typeAliases, lookupAlias.
  destruct (String.eqb_spec "int4" t) as [<-|Hne]; [left|right]; auto.
Qed.

Lemma useTypeAlias_not_int4 (t : string) : useTypeAlias t <> "int4".
Proof.
  destruct (useTypeAlias_cases t) as [[_ H]|[Hne H]]; rewrite H; [discriminate|exact Hne].
Qed.

(** X6. The alias table has no chain: normalising a type twice is
    normalising it once, the result is never [int4], and every type other
    than [int4] is left as it is. *)
Theorem useTypeAlias_normalises (t : string) :
  useTypeAlias (useTypeAlias t) = useTypeAlias t
  /\ useTypeAlias t <> "int4"
  /\ (t <> "int4" -> useTypeAlias t = t).
Proof.
  split; [|split].
  - destruct (useTypeAlias_cases t) as [[-> H]|[Hne H]]; [reflexivity|].
    now rewrite H.
  - apply useTypeAlias_not_int4.
  - intros Hne. destruct (useTypeAlias_cases t) as [[Heq _]|[_ H]]; [contradiction|exact H].
Qed.

Lemma lowerAscii_is (c : ascii) :
  (lowerAscii c = "y"%char <-> c = "y"%char \/ c = "Y"%char)
  /\ (lowerAscii c = "e"%char <-> c = "e"%char \/ c = "E"%char)
  /\ (lowerAscii c = "s"%char <-> c = "s"%char \/ c = "S"%char).
Proof.
  destruct c as [[] [] [] [] [] [] [] []]; vm_compute;
    repeat split; try (intros H; discriminate H); auto;
    intros [H|H]; discriminate H.
Qed.

Lemma ToLower_empty (s : string) : ToLower s = EmptyString <-> s = EmptyString.
Proof.
  destruct s; simpl; split; intros H; try discriminate; reflexivity.
Qed.

(** X7. A value of [is_nullable] is read as nullable exactly when it is
    [yes] in some mix of upper and lower case; anything else, the empty
    string included, is read as not nullable. *)
Theorem parseIsNullable_yes_in_any_case (data : string) :
  parseIsNullable data = true
  <-> exists a b c : ascii,
        data = String a (String b (String c EmptyString))
        /\ (a = "y"%char \/ a = "Y"%char)
        /\ (b = "e"%char \/ b = "E"%char)
        /\ (c = "s"%char \/ c = "S"%char).
Proof.
  unfold parseIsNullable. rewrite String.eqb_eq. split.
  - intros H.
    destruct data as [|a [|b [|c rest]]]; simpl in H; try discriminate.
    injection H as Ha Hb Hc Hrest.
    apply (proj1 (ToLower_empty rest)) in Hrest. subst rest.
    exists a, b, c. split; [reflexivity|].
    repeat split; now apply lowerAscii_is.
  - intros (a & b & c & -> & Ha & Hb & Hc). simpl.
    apply (proj1 (lowerAscii_is a)) in Ha.
    apply (proj1 (proj2 (lowerAscii_is b))) in Hb.
    apply (proj2 (proj2 (lowerAscii_is c))) in Hc.
    now rewrite Ha, Hb, Hc.
Qed.

Lemma scanRows_split (rs : list RowScan) (acc : list Column) :
  exists (pre : list CatalogRow) (rest : list RowScan),
    rs = map ScanOk pre ++ rest
    /\ (rest = [] \/ exists e post, rest = ScanErr e :: post)
    /\ scanRows rs acc
       = (acc ++ map columnOfRow pre,
          match rest with ScanErr e :: _ => Some e | _ => None end).
Proof.
  revert acc.
  induction rs as [|[r|e] rs IH]; intros acc.
  - exists [], []. simpl. rewrite app_nil_r. auto.
  - destruct (IH (acc ++ [columnOfRow r])) as (pre & rest & Hrs & Hrest & Hscan).
    exists (r :: pre), rest. simpl. rewrite Hscan, <- app_assoc. simpl.
    subst rs. auto.
  - exists [], (ScanErr e :: rs). simpl. rewrite app_nil_r.
    repeat split; eauto.
Qed.

(** X5. When the columns query succeeds, [columns] returns one column per
    row that scanned, in the order of the rows, up to the first row that
    fails to scan, whose error it returns; with no such row it returns all
    of them and no error.  Every column it returns carries [is_null], and
    none has the type [int4]. *)
Theorem columns_reads_rows_in_order (tableName : string) (s : St DB) (db' : DB)
        (rs : list RowScan) (iterErr : option GoError) :
  dbQuery columnsDescribeQuery tableName (db s) = (db', QueryRows rs iterErr) ->
  exists (pre : list CatalogRow) (rest : list RowScan),
    rs = map ScanOk pre ++ rest
    /\ (rest = [] \/ exists e post, rest = ScanErr e :: post)
    /\ columns tableName s
       = (Val (map columnOfRow pre,
               match rest with ScanErr e :: _ => Some e | _ => None end),
          mkSt (rd s) db' (trace s ++ [Query columnsDescribeQuery tableName]))
    /\ Forall (fun c => columnIsNull c <> None /\ columnType c <> "int4")
              (map columnOfRow pre).
Proof.
  intros H.
  destruct (scanRows_split rs []) as (pre & rest & Hrs & Hrest & Hscan).
  exists pre, rest. split; [exact Hrs|]. split; [exact Hrest|]. split.
  - unfold columns, bind, RunQuery. rewrite H. simpl. unfold ret.
    now rewrite Hscan.
  - apply Forall_forall. intros c Hc.
    apply in_map_iff in Hc as (r & <- & _). simpl. split; [discriminate|].
    apply useTypeAlias_not_int4.
Qed.

(** *** Rename *)

Lemma renames_intro (d : ResourceData) :
  rdIsNew d = false -> rdNameOld d <> rdNameNew d -> rdNameNew d <> EmptyString ->
  renames d = true.
Proof.
  intros Hnew Hne Hnonempty. unfold renames. rewrite Hnew.
  apply String.eqb_neq in Hne, Hnonempty. now rewrite Hne, Hnonempty.
Qed.

Lemma renamePhase_skipped (s : St DB) :
  rdIsNew (rd s) = true \/ rdNameOld (rd s) = rdNameNew (rd s) ->
  renamePhase s = (Val None, s).
Proof.
  intros H.
  unfold renamePhase, bind, IsNewResource.
  destruct (rdIsNew (rd s)); simpl; [reflexivity|].
  destruct H as [H|H]; [discriminate|].
  unfold renameTableIfNeeded, bind, HasChangeName. simpl.
  apply String.eqb_eq in H. now rewrite H.
Qed.

Lemma alterColumnsIfNeeded_nothing (s : St DB) :
  length (rdColumnNew (rd s)) <= length (rdColumnOld (rd s)) ->
  alterColumnsIfNeeded s = (Val None, s).
Proof.
  intros H. rewrite alterColumnsIfNeeded_apply.
  now rewrite (diffColumns_nil _ _ H).
Qed.

(** X8. When the rename statement of an update fails, Update returns the
    error wrapped; the identifier, with the rest of the resource data, is as
    it was, and the rename is the only call on the database: no column
    statement, no read-back. *)
Theorem rename_failure_keeps_identifier (s : St DB) (db' : DB) (e : GoError) :
  rdIsNew (rd s) = false ->
  rdNameOld (rd s) <> rdNameNew (rd s) ->
  rdNameNew (rd s) <> EmptyString ->
  dbExec (renameTableSQL (rdNameOld (rd s)) (rdNameNew (rd s))) (db s) = (db', Some e) ->
  resourcePostgreSQLTableUpdate s
  = (Val (Some (Wrapf "Error updating table NAME: {{err}}" e)),
     mkSt (rd s) db'
          (trace s ++ [Lock; Exec (renameTableSQL (rdNameOld (rd s)) (rdNameNew (rd s)));
                       Unlock])).
Proof.
  intros Hnew Hne Hnonempty Hexec.
  unfold resourcePostgreSQLTableUpdate, locked.
  rewrite updateImpl_unfold.
  pose proof (renames_intro (rd s) Hnew Hne Hnonempty) as Hren.
  destruct (renamePhase_cases (emit Lock s))
    as [(Hr & _) | [(Hr & _) | (_ & _ & db1 & [(He & _) | (e1 & He & Hp)])]];
    cbv zeta in *; simpl in *; try congruence.
  rewrite Hp. rewrite Hexec in He. injection He as <- <-.
  unfold emit. simpl. now rewrite <- !app_assoc.
Qed.

(** X9. An update that changes neither the name (or is the update inside
    Create) nor makes the column list longer is the read-back alone: it
    sends no statement, only the queries of Read. *)
Theorem update_without_change_only_reads_back (s : St DB) :
  rdIsNew (rd s) = true \/ rdNameOld (rd s) = rdNameNew (rd s) ->
  length (rdColumnNew (rd s)) <= length (rdColumnOld (rd s)) ->
  resourcePostgreSQLTableUpdateImpl s = resourcePostgreSQLTableReadImpl s
  /\ exists reads : list Event,
       trace (snd (resourcePostgreSQLTableUpdateImpl s)) = trace s ++ reads
       /\ Forall (fun e => isQuery e = true) reads.
Proof.
  intros Hname Hcols.
  assert (H : resourcePostgreSQLTableUpdateImpl s = resourcePostgreSQLTableReadImpl s).
  { rewrite updateImpl_unfold, (renamePhase_skipped s Hname).
    now rewrite (alterColumnsIfNeeded_nothing s Hcols). }
  split; [exact H|]. rewrite H. apply readImpl_reads.
Qed.

(** X10. An update that only renames, its rename statement succeeding, is
    that one statement followed by Read under the new name: the probe of
    the read-back asks for the new name, whatever the catalog then
    answers. *)
Theorem rename_only_update_is_rename_then_read (s : St DB) (db' : DB) :
  rdIsNew (rd s) = false ->
  rdNameOld (rd s) <> rdNameNew (rd s) ->
  rdNameNew (rd s) <> EmptyString ->
  length (rdColumnNew (rd s)) <= length (rdColumnOld (rd s)) ->
  dbExec (renameTableSQL (rdNameOld (rd s)) (rdNameNew (rd s))) (db s) = (db', None) ->
  resourcePostgreSQLTableUpdateImpl s
  = resourcePostgreSQLTableReadImpl
      (mkSt (withId (rd s) (rdNameNew (rd s))) db'
            (trace s ++ [Exec (renameTableSQL (rdNameOld (rd s)) (rdNameNew (rd s)))])).
Proof.
  intros Hnew Hne Hnonempty Hcols Hexec.
  rewrite updateImpl_unfold.
  pose proof (renames_intro (rd s) Hnew Hne Hnonempty) as Hren.
  destruct (renamePhase_cases s)
    as [(Hr & _) | [(Hr & _) | (_ & _ & db1 & [(He & Hp) | (e1 & He & _)])]];
    cbv zeta in *; try congruence.
  rewrite Hp. rewrite Hexec in He. injection He as <-.
  now rewrite alterColumnsIfNeeded_nothing.
Qed.

(** *** Create *)

(** X11. Create never renames.  For a resource marked new and whatever the
    database answers, the statements of Create are the CREATE TABLE and then
    an initial segment of the add-column statements, addressed to the
    declared name; every other call is a query. *)
Theorem create_never_renames (s : St DB) :
  rdIsNew (rd s) = true ->
  exists (cols : list string) (reads : list Event),
    trace (snd (resourcePostgreSQLTableCreate s))
    = trace s ++ Lock :: Exec (createTableSQL (nameOf (rd s)))
                      :: map Exec cols ++ reads ++ [Unlock]
    /\ (exists k, cols = firstn k (addColumnStatements (nameOf (rd s))
                                     (rdColumnOld (rd s)) (rdColumnNew (rd s))))
    /\ Forall (fun e => isQuery e = true) reads.
Proof.
  intros Hnew.
  unfold resourcePostgreSQLTableCreate, locked, bind, GetName, ExecSQL. simpl.
  destruct (dbExec (createTableSQL (nameOf (rd s))) (db s)) as [db1 [e|]]; simpl.
  - exists [], []. simpl. rewrite <- !app_assoc. simpl.
    repeat split; auto. exists 0. reflexivity.
  - match goal with
    | |- context [resourcePostgreSQLTableUpdateImpl ?s1] =>
        destruct (updateImpl_calls s1)
          as (ren & cols & reads & Htr & Hren & Hcols & Hreads);
        destruct (resourcePostgreSQLTableUpdateImpl s1) as [r s2]
    end.
    simpl in *.
    destruct Hren as [->|(_ & Hn & _)]; [|congruence].
    exists cols, reads. rewrite Htr. simpl. rewrite <- !app_assoc. simpl.
    auto.
Qed.

(** X12. Create of a resource with no prior columns adds every declared
    column.  When all statements succeed and the read-back finds the table,
    the calls are the CREATE TABLE, one add-column statement per declared
    column in the declared order, each addressed to the declared name, then
    the two queries; the resource data ends up with the catalog's name,
    identifier and columns. *)
Theorem create_adds_every_declared_column (s : St DB) (db1 db2 db3 db4 : DB)
        (tableName : string) (rows : list CatalogRow) (iterErr : option GoError) :
  rdIsNew (rd s) = true ->
  rdColumnOld (rd s) = [] ->
  dbExec (createTableSQL (nameOf (rd s))) (db s) = (db1, None) ->
  execAll (map (createColumnSQL (nameOf (rd s))) (rdColumnNew (rd s))) db1 = Some db2 ->
  dbQueryRow tableDescribeQuery (nameOf (rd s)) db2 = (db3, inl tableName) ->
  dbQuery columnsDescribeQuery tableName db3 = (db4, QueryRows (map ScanOk rows) iterErr) ->
  columnSetError (map columnOfRow rows) = None ->
  resourcePostgreSQLTableCreate s
  = (Val None,
     mkSt (observed (rd s) tableName (map columnOfRow rows)) db4
          (trace s
           ++ Lock :: Exec (createTableSQL (nameOf (rd s)))
                   :: map Exec (map (createColumnSQL (nameOf (rd s))) (rdColumnNew (rd s)))
           ++ [QueryRow tableDescribeQuery (nameOf (rd s));
               Query columnsDescribeQuery tableName; Unlock])).
Proof.
  intros Hnew Hold Hcreate Hcols Hrow Hq Hset.
  unfold resourcePostgreSQLTableCreate, locked, bind, GetName, ExecSQL. simpl.
  rewrite Hcreate. simpl.
  rewrite updateImpl_unfold.
  rewrite renamePhase_skipped by (left; exact Hnew).
  match goal with
  | |- context [alterColumnsIfNeeded ?s1] =>
      assert (Hstmts : addColumnStatements (rdId (rd s1)) (rdColumnOld (rd s1))
                                           (rdColumnNew (rd s1))
                       = map (createColumnSQL (nameOf (rd s))) (rdColumnNew (rd s)))
        by (simpl; rewrite <- addColumnStatements_map, diffColumns_skipn, Hold;
            reflexivity);
      assert (Hexec : execAll (addColumnStatements (rdId (rd s1)) (rdColumnOld (rd s1))
                                                   (rdColumnNew (rd s1))) (db s1)
                      = Some db2) by (rewrite Hstmts; exact Hcols);
      rewrite (alterColumnsIfNeeded_ok s1 db2 Hexec), Hstmts
  end.
  match goal with
  | |- context [resourcePostgreSQLTableReadImpl ?s2] =>
      rewrite (readImpl_found s2 db3 db4 tableName (map ScanOk rows) iterErr
                              (map columnOfRow rows) Hrow Hq
                              (scanRows_all_ok rows []) Hset)
  end.
  unfold emit, observed. simpl. rewrite <- !app_assoc. reflexivity.
Qed.

(** *** The column step, whatever the database answers *)

Lemma execAll_cases (stmts : list string) (d : DB) :
  (exists d', execAll stmts d = Some d')
  \/ (exists pre stmt post d1 d2 e,
        stmts = pre ++ stmt :: post
        /\ execAll pre d = Some d1
        /\ dbExec stmt d1 = (d2, Some e)).
Proof.
  revert d.
  induction stmts as [|q stmts IH]; intros d; simpl.
  - left. eauto.
  - destruct (dbExec q d) as [d1 [e|]] eqn:E.
    + right. exists [], q, stmts, d, d1, e. auto.
    + destruct (IH d1) as [[d' H]|(pre & stmt & post & d2 & d3 & e & -> & Hpre & Hfail)].
      * left. eauto.
      * right. exists (q :: pre), stmt, post, d2, d3, e. simpl. rewrite E. auto.
Qed.

(** X13. Whatever the database answers, the column step of an update does
    one of two things: it sends every add-column statement and returns no
    error, or it stops at the first statement that fails and returns that
    error wrapped.  In both cases it returns (it does not panic) and the
    resource data, the identifier included, is as it was. *)
Theorem alterColumnsIfNeeded_all_or_first_failure (s : St DB) :
  (exists db',
     execAll (addColumnStatements (rdId (rd s)) (rdColumnOld (rd s)) (rdColumnNew (rd s)))
             (db s) = Some db'
     /\ alterColumnsIfNeeded s
        = (Val None,
           mkSt (rd s) db'
                (trace s ++ map Exec (addColumnStatements (rdId (rd s)) (rdColumnOld (rd s))
                                                          (rdColumnNew (rd s))))))
  \/ (exists pre stmt post db1 db2 e,
        addColumnStatements (rdId (rd s)) (rdColumnOld (rd s)) (rdColumnNew (rd s))
        = pre ++ stmt :: post
        /\ execAll pre (db s) = Some db1
        /\ dbExec stmt db1 = (db2, Some e)
        /\ alterColumnsIfNeeded s
           = (Val (Some (Wrapf "Error updating table NAME: {{err}}" e)),
              mkSt (rd s) db2 (trace s ++ map Exec (pre ++ [stmt])))).
Proof.
  destruct (execAll_cases
              (addColumnStatements (rdId (rd s)) (rdColumnOld (rd s)) (rdColumnNew (rd s)))
              (db s))
    as [[db' H]|(pre & stmt & post & db1 & db2 & e & Hsplit & Hpre & Hfail)].
  - left. exists db'. split; [exact H|]. now apply alterColumnsIfNeeded_ok.
  - right. exists pre, stmt, post, db1, db2, e.
    repeat split; auto.
    rewrite alterColumnsIfNeeded_apply.
    rewrite <- addColumnStatements_map in Hsplit.
    exact (applyAddColumns_fail _ s pre stmt post db1 db2 e Hsplit Hpre Hfail).
Qed.

(** *** Exists and Read together *)

(** X14. Exists and Read probe the catalog with the same query and the same
    argument, so on one state they agree about absence: Exists answers
    false with no error exactly when Read stops after its probe with no
    error and the identifier cleared. *)
Theorem exists_and_read_agree_on_absence (s : St DB) :
  fst (resourcePostgreSQLTableExists s) = Val (false, None)
  <-> resourcePostgreSQLTableRead s
      = (Val None,
         mkSt (withId (rd s) EmptyString)
              (fst (dbQueryRow tableDescribeQuery (rdId (rd s)) (db s)))
              (trace s ++ [RLock; QueryRow tableDescribeQuery (rdId (rd s)); RUnlock])).
Proof.
  unfold resourcePostgreSQLTableExists, resourcePostgreSQLTableRead, locked,
    resourcePostgreSQLTableReadImpl, bind, Id, QueryRowScan, emit. simpl.
  change tableExistsQuery with tableDescribeQuery.
  destruct (dbQueryRow tableDescribeQuery (rdId (rd s)) (db s)) as [db' [name|err]]; simpl.
  - split; [discriminate|].
    destruct (columns name _) as [[cr|msg] s1] eqn:Ecols; simpl.
    + unfold columns, bind, RunQuery in Ecols. simpl in Ecols.
      destruct (dbQuery columnsDescribeQuery name db') as [db2 [e|rs ie]];
        simpl in Ecols; [discriminate|].
      injection Ecols as <- <-.
      destruct (snd (scanRows rs [])); simpl;
        [discriminate|].
      unfold SetColumn. simpl.
      destruct (columnSetError (fst (scanRows rs []))); simpl; [discriminate|].
      intros H. apply (f_equal (fun p => trace (snd p))) in H. simpl in H.
      rewrite <- !app_assoc in H. apply app_inv_head in H. discriminate.
    + discriminate.
  - destruct err; simpl; split; try discriminate; intros _;
      unfold withRd, withId; simpl; rewrite <- ?app_assoc; reflexivity.
Qed.

(** X15. Read is idempotent on a catalog at rest.  When the probe answers
    the same name for the identifier and for that name, the queries leave
    the database as it is and every row scans, a second Read returns no
    error and leaves the resource data and the database as the first Read
    left them. *)
Theorem read_twice_is_read_once (s : St DB) (tableName : string)
        (rows : list CatalogRow) (iterErr : option GoError) :
  dbQueryRow tableDescribeQuery (rdId (rd s)) (db s) = (db s, inl tableName) ->
  dbQueryRow tableDescribeQuery tableName (db s) = (db s, inl tableName) ->
  dbQuery columnsDescribeQuery tableName (db s)
  = (db s, QueryRows (map ScanOk rows) iterErr) ->
  columnSetError (map columnOfRow rows) = None ->
  fst (resourcePostgreSQLTableRead (snd (resourcePostgreSQLTableRead s))) = Val None
  /\ rd (snd (resourcePostgreSQLTableRead (snd (resourcePostgreSQLTableRead s))))
     = rd (snd (resourcePostgreSQLTableRead s))
  /\ db (snd (resourcePostgreSQLTableRead (snd (resourcePostgreSQLTableRead s))))
     = db (snd (resourcePostgreSQLTableRead s)).
Proof.
  intros Hid Hname Hq Hset.
  assert (Hread : forall s0 : St DB,
             db s0 = db s ->
             rdId (rd s0) = rdId (rd s) \/ rdId (rd s0) = tableName ->
             resourcePostgreSQLTableRead s0
             = (Val None,
                mkSt (observed (rd s0) tableName (map columnOfRow rows)) (db s)
                     (trace s0 ++ [RLock; QueryRow tableDescribeQuery (rdId (rd s0));
                                   Query columnsDescribeQuery tableName; RUnlock]))).
  { intros s0 Hdb Hids.
    assert (Hrow : dbQueryRow tableDescribeQuery (rdId (rd (emit RLock s0)))
                              (db (emit RLock s0)) = (db s, inl tableName)).
    { simpl. rewrite Hdb. destruct Hids as [->| ->]; assumption. }
    unfold resourcePostgreSQLTableRead, locked.
    rewrite (readImpl_found (emit RLock s0) (db s) (db s) tableName
                            (map ScanOk rows) iterErr (map columnOfRow rows)
                            Hrow Hq (scanRows_all_ok rows []) Hset).
    unfold emit. simpl. now rewrite <- !app_assoc. }
  rewrite (Hread s eq_refl (or_introl eq_refl)). simpl.
  rewrite Hread by (simpl; auto). simpl.
  repeat split.
Qed.

End Resource.

(** ** Concrete runs *)

(** Appending [email] to [id] issues one statement; dropping [email], or
    swapping two columns, issues none. *)
Lemma column_differ_append_only_positional_witness :
  alterColumnsIfNeeded quoteIdent stAppend
  = (Val None,
     mkSt (rd stAppend)
          (mkScriptDB None 1 (inl "users") (QueryRows [ScanOk rowId; ScanOk rowEmail] None))
          [Exec (createColumnSQL quoteIdent "users" colEmail)])
  /\ alterColumnsIfNeeded quoteIdent stRemoval = (Val None, stRemoval)
  /\ alterColumnsIfNeeded quoteIdent stReorder = (Val None, stReorder).
Proof.
  pose proof (column_differ_append_only_positional quoteIdent stAppend)
    as (_ & _ & _ & Happend & _ & _).
  pose proof (column_differ_append_only_positional quoteIdent stRemoval)
    as (_ & _ & _ & _ & Hremoval & _).
  pose proof (column_differ_append_only_positional quoteIdent stReorder)
    as (_ & _ & _ & _ & _ & Hreorder).
  split; [|split].
  - exact (Happend _ eq_refl).
  - apply Hremoval. simpl. lia.
  - apply Hreorder. apply perm_swap.
Defined.

(** Renaming [users] to [accounts] and appending [email]: the rename, then
    the column on [accounts], then the two reads. *)
Lemma update_renames_then_adds_columns_then_reads_back_witness :
  resourcePostgreSQLTableUpdateImpl quoteIdent acceptColumns stRename
  = (Val None,
     mkSt (observed (rd stRename) "accounts" [columnOfRow rowId; columnOfRow rowEmail])
          (mkScriptDB None 2 (inl "accounts") (QueryRows [ScanOk rowId; ScanOk rowEmail] None))
          [Exec (renameTableSQL quoteIdent "users" "accounts");
           Exec (createColumnSQL quoteIdent "accounts" colEmail);
           QueryRow tableDescribeQuery "accounts";
           Query columnsDescribeQuery "accounts"]).
Proof.
  pose proof (update_renames_then_adds_columns_then_reads_back
                quoteIdent acceptColumns stRename) as [_ Hok].
  exact (proj1 (Hok (mkScriptDB None 2 (inl "accounts")
                                (QueryRows [ScanOk rowId; ScanOk rowEmail] None))
                    _ _ "accounts" [ScanOk rowId; ScanOk rowEmail] None
                    [columnOfRow rowId; columnOfRow rowEmail]
                    eq_refl eq_refl eq_refl eq_refl eq_refl eq_refl)).
Defined.

(** Renaming [users] to the empty name. *)
Lemma update_to_empty_name_is_rejected_witness :
  resourcePostgreSQLTableUpdate quoteIdent acceptColumns stEmptyName
  = (Val (Some (ErrorsNew "Error setting table name to an empty string")),
     mkSt (rd stEmptyName) (db stEmptyName) [Lock; Unlock]).
Proof.
  refine (proj1 (update_to_empty_name_is_rejected quoteIdent acceptColumns stEmptyName
                   _ _ eq_refl)); simpl; discriminate.
Defined.

(** The table is not in the catalog. *)
Lemma no_rows_is_absent_not_an_error_witness :
  resourcePostgreSQLTableExists stNoTable
  = (Val (false, None),
     mkSt (rd stNoTable) dbNoTable [RLock; QueryRow tableExistsQuery "users"; RUnlock])
  /\ resourcePostgreSQLTableRead acceptColumns stNoTable
     = (Val None,
        mkSt (withId (rd stNoTable) EmptyString) dbNoTable
             [RLock; QueryRow tableDescribeQuery "users"; RUnlock]).
Proof.
  pose proof (no_rows_is_absent_not_an_error acceptColumns stNoTable) as [Hexists Hread].
  split.
  - exact (Hexists dbNoTable eq_refl).
  - exact (Hread dbNoTable eq_refl).
Defined.

(** Three columns to append, the second statement failing: [email] is
    added, [a] fails, [b] is not tried. *)
Lemma add_column_failure_stops_without_rollback_witness :
  alterColumnsIfNeeded quoteIdent stSecondFails
  = (Val (Some (Wrapf "Error updating table NAME: {{err}}" (DriverError "exec failed"))),
     mkSt (rd stSecondFails)
          (mkScriptDB (Some 1) 2 (inl "users") (QueryRows [ScanOk rowId; ScanOk rowEmail] None))
          [Exec (createColumnSQL quoteIdent "users" colEmail);
           Exec (createColumnSQL quoteIdent "users" colA)])
  /\ resourcePostgreSQLTableUpdateImpl quoteIdent acceptColumns stSecondFails
     = (Val (Some (Wrapf "Error updating table NAME: {{err}}" (DriverError "exec failed"))),
        mkSt (rd stSecondFails)
             (mkScriptDB (Some 1) 2 (inl "users") (QueryRows [ScanOk rowId; ScanOk rowEmail] None))
             [Exec (createColumnSQL quoteIdent "users" colEmail);
              Exec (createColumnSQL quoteIdent "users" colA)]).
Proof.
  pose proof (add_column_failure_stops_without_rollback
                quoteIdent acceptColumns stSecondFails) as (_ & Hcol & Hupd).
  split.
  - exact (Hcol [createColumnSQL quoteIdent "users" colEmail]
                (createColumnSQL quoteIdent "users" colA)
                [createColumnSQL quoteIdent "users" colB]
                (mkScriptDB (Some 1) 1 (inl "users") (QueryRows [ScanOk rowId; ScanOk rowEmail] None))
                _ (DriverError "exec failed") eq_refl eq_refl eq_refl).
  - exact (Hupd [createColumnSQL quoteIdent "users" colEmail]
                (createColumnSQL quoteIdent "users" colA)
                [createColumnSQL quoteIdent "users" colB]
                (db stSecondFails)
                (mkScriptDB (Some 1) 1 (inl "users") (QueryRows [ScanOk rowId; ScanOk rowEmail] None))
                _ (DriverError "exec failed") eq_refl eq_refl eq_refl eq_refl eq_refl).
Defined.

(** The CREATE TABLE statement fails. *)
Lemma create_failure_leaves_identifier_unset_witness :
  resourcePostgreSQLTableCreate quoteIdent acceptColumns stCreateFails
  = (Val (Some (Wrapf "Error creating table users: {{err}}" (DriverError "exec failed"))),
     mkSt (rd stCreateFails)
          (mkScriptDB (Some 0) 1 (inl "users") (QueryRows [ScanOk rowId; ScanOk rowEmail] None))
          [Lock; Exec (createTableSQL quoteIdent "users"); Unlock]).
Proof.
  exact (create_failure_leaves_identifier_unset quoteIdent acceptColumns stCreateFails
           _ (DriverError "exec failed") eq_refl).
Defined.

(** The columns query fails, and the columns query breaks off after one row:
    no error comes back from [columns]. *)
Lemma columns_query_error_is_not_returned_witness :
  columns "users" stColumnsQueryFails
  = (Panic "invalid memory address or nil pointer dereference",
     mkSt (rd stColumnsQueryFails) dbColumnsQueryFails [Query columnsDescribeQuery "users"])
  /\ columns "users" stColumnsWalkFails
     = (Val ([columnOfRow rowId], None),
        mkSt (rd stColumnsWalkFails) dbColumnsWalkFails [Query columnsDescribeQuery "users"]).
Proof.
  split.
  - exact (proj1 (proj1 (columns_query_error_is_not_returned "users" stColumnsQueryFails)
                        dbColumnsQueryFails (DriverError "connection reset by peer")
                        eq_refl)).
  - exact (proj2 (columns_query_error_is_not_returned "users" stColumnsWalkFails)
                 dbColumnsWalkFails [rowId] (DriverError "unexpected EOF") eq_refl).
Defined.

(** ** Small checks of the helpers *)

Example useTypeAlias_int4 :
  useTypeAlias "int4" = "int" /\ useTypeAlias "varchar" = "varchar".
Proof. split; reflexivity. Qed.

Example parseIsNullable_yes :
  parseIsNullable "YES" = true /\ parseIsNullable "yes" = true
  /\ parseIsNullable "NO" = false.
Proof. repeat split; reflexivity. Qed.

Example Itoa_decimal :
  Itoa 255 = "255" /\ Itoa 0 = "0" /\ Itoa (-7) = "-7".
Proof. repeat split; reflexivity. Qed.

Example diffColumns_samples :
  diffColumns [colId] [colId; colEmail] = [(1, colEmail)]
  /\ diffColumns [colId; colEmail] [colId] = []
  /\ diffColumns [colA; colB] [colB; colA] = []
  /\ diffColumns [] [colA; colB] = [(0, colA); (1, colB)].
Proof. repeat split; reflexivity. Qed.

Example createColumnSQL_email :
  createColumnSQL quoteIdent "users" colEmail
  = "ALTER TABLE users ADD COLUMN " +++ quoteIdent "email" +++ " varchar(255) NOT NULL".
Proof. reflexivity. Qed.

(** A table name with a space in it reaches the statement as it is. *)
Example createColumnSQL_table_name_as_is :
  createColumnSQL quoteIdent "user accounts" colB
  = "ALTER TABLE user accounts ADD COLUMN " +++ quoteIdent "b" +++ " text DEFAULT 'x'".
Proof. reflexivity. Qed.

(** A column map without the optional keys renders no clause. *)
Example createColumnSQL_bare :
  createColumnSQL quoteIdent "users" (mkColumn "n" "int" None None None)
  = "ALTER TABLE users ADD COLUMN " +++ quoteIdent "n" +++ " int".
Proof. reflexivity. Qed.

(** Read on a database whose columns query fails: the panic leaves the
    verb, the deferred release of the lock having run. *)
Example read_panics_when_columns_query_fails :
  resourcePostgreSQLTableRead acceptColumns stColumnsQueryFails
  = (Panic "invalid memory address or nil pointer dereference",
     mkSt (mkResourceData "users" false "users" "users" [] [] (Some "users") None)
          dbColumnsQueryFails
          [RLock; QueryRow tableDescribeQuery "users";
           Query columnsDescribeQuery "users"; RUnlock]).
Proof. reflexivity. Qed.

(** Create of [users] with one column on a database where all succeeds. *)
Example create_then_read_back :
  resourcePostgreSQLTableCreate quoteIdent acceptColumns
    (mkSt (mkResourceData EmptyString true EmptyString "users" [] [colId] None None)
          (dbAnswering "users") [])
  = (Val None,
     mkSt (mkResourceData "users" true EmptyString "users" [] [colId]
                          (Some "users") (Some [columnOfRow rowId; columnOfRow rowEmail]))
          (mkScriptDB None 2 (inl "users") (QueryRows [ScanOk rowId; ScanOk rowEmail] None))
          [Lock;
           Exec (createTableSQL quoteIdent "users");
           Exec (createColumnSQL quoteIdent "users" colId);
           QueryRow tableDescribeQuery "users";
           Query columnsDescribeQuery "users";
           Unlock]).
Proof. reflexivity. Qed.

(** ** Concrete runs of the further properties *)

Lemma exists_probes_once_and_keeps_resource_data_witness :
  fst (resourcePostgreSQLTableExists stProbeFails)
  = Val (false, Some (DriverError "connection refused")).
Proof.
  pose proof (exists_probes_once_and_keeps_resource_data stProbeFails)
    as (_ & _ & _ & _ & Herr).
  apply Herr; [reflexivity|discriminate].
Defined.

Lemma read_probe_error_is_wrapped_witness :
  resourcePostgreSQLTableRead acceptColumns stProbeFails
  = (Val (Some (Wrapf "Error reading TABLE (users): {{err}}"
                      (DriverError "connection refused"))),
     mkSt (rd stProbeFails) dbProbeFails
          [RLock; QueryRow tableDescribeQuery "users"; RUnlock]).
Proof.
  refine (read_probe_error_is_wrapped acceptColumns stProbeFails dbProbeFails
            (DriverError "connection refused") eq_refl _).
  discriminate.
Defined.

Lemma read_overwrites_with_catalog_witness :
  resourcePostgreSQLTableRead acceptColumns stFound
  = (Val None,
     mkSt (mkResourceData "users" false "users" "users" [] []
                          (Some "users") (Some [columnOfRow rowId; columnOfRow rowEmail]))
          (dbAnswering "users")
          [RLock; QueryRow tableDescribeQuery "users";
           Query columnsDescribeQuery "users"; RUnlock]).
Proof.
  exact (read_overwrites_with_catalog acceptColumns stFound (dbAnswering "users")
           (dbAnswering "users") "users" [rowId; rowEmail] None
           eq_refl eq_refl eq_refl).
Defined.

Lemma read_scan_error_after_name_is_set_witness :
  resourcePostgreSQLTableRead acceptColumns stScanFails
  = (Val (Some (Wrapf "Error reading columns TABLE (users): {{err}}"
                      (DriverError "unsupported Scan"))),
     mkSt (mkResourceData "users" false "users" "users" [] [] (Some "users") None)
          dbScanFails
          [RLock; QueryRow tableDescribeQuery "users";
           Query columnsDescribeQuery "users"; RUnlock]).
Proof.
  exact (read_scan_error_after_name_is_set acceptColumns stScanFails dbScanFails dbScanFails
           "users" [rowId] (DriverError "unsupported Scan") [ScanOk rowEmail] None
           eq_refl eq_refl).
Defined.

Lemma columns_reads_rows_in_order_witness :
  exists (pre : list CatalogRow) (rest : list RowScan),
    [ScanOk rowId; ScanErr (DriverError "unsupported Scan"); ScanOk rowEmail]
    = map ScanOk pre ++ rest
    /\ (rest = [] \/ exists e post, rest = ScanErr e :: post)
    /\ columns "users" stScanFails
       = (Val (map columnOfRow pre,
               match rest with ScanErr e :: _ => Some e | _ => None end),
          mkSt (rd stScanFails) dbScanFails [Query columnsDescribeQuery "users"])
    /\ Forall (fun c => columnIsNull c <> None /\ columnType c <> "int4")
              (map columnOfRow pre).
Proof.
  exact (columns_reads_rows_in_order "users" stScanFails dbScanFails
           [ScanOk rowId; ScanErr (DriverError "unsupported Scan"); ScanOk rowEmail]
           None eq_refl).
Defined.

Lemma useTypeAlias_normalises_witness : useTypeAlias "varchar" = "varchar".
Proof.
  apply (useTypeAlias_normalises "varchar"). discriminate.
Defined.

Lemma parseIsNullable_yes_in_any_case_witness : parseIsNullable "Yes" = true.
Proof.
  apply (proj2 (parseIsNullable_yes_in_any_case "Yes")).
  exists "Y"%char, "e"%char, "s"%char. auto.
Defined.

Lemma rename_failure_keeps_identifier_witness :
  resourcePostgreSQLTableUpdate quoteIdent acceptColumns stRenameFails
  = (Val (Some (Wrapf "Error updating table NAME: {{err}}" (DriverError "exec failed"))),
     mkSt (rd stRenameFails)
          (mkScriptDB (Some 0) 1 (inl "users") (QueryRows [ScanOk rowId; ScanOk rowEmail] None))
          [Lock; Exec (renameTableSQL quoteIdent "users" "accounts"); Unlock]).
Proof.
  refine (rename_failure_keeps_identifier quoteIdent acceptColumns stRenameFails _
            (DriverError "exec failed") eq_refl _ _ eq_refl); simpl; discriminate.
Defined.

Lemma update_without_change_only_reads_back_witness :
  resourcePostgreSQLTableUpdateImpl quoteIdent acceptColumns stUnchanged
  = resourcePostgreSQLTableReadImpl acceptColumns stUnchanged.
Proof.
  refine (proj1 (update_without_change_only_reads_back quoteIdent acceptColumns
                   stUnchanged _ _)).
  - right. reflexivity.
  - simpl. lia.
Defined.

Lemma rename_only_update_is_rename_then_read_witness :
  resourcePostgreSQLTableUpdateImpl quoteIdent acceptColumns stRenameOnly
  = resourcePostgreSQLTableReadImpl acceptColumns
      (mkSt (withId (rd stRenameOnly) "accounts")
            (mkScriptDB None 1 (inl "accounts") (QueryRows [ScanOk rowId; ScanOk rowEmail] None))
            [Exec (renameTableSQL quoteIdent "users" "accounts")]).
Proof.
  refine (rename_only_update_is_rename_then_read quoteIdent acceptColumns stRenameOnly _
            eq_refl _ _ _ eq_refl); simpl; try discriminate; lia.
Defined.

Lemma create_never_renames_witness :
  exists (cols : list string) (reads : list Event),
    trace (snd (resourcePostgreSQLTableCreate quoteIdent acceptColumns stCreate))
    = Lock :: Exec (createTableSQL quoteIdent "users") :: map Exec cols ++ reads ++ [Unlock]
    /\ (exists k, cols = firstn k (addColumnStatements quoteIdent "users" []
                                                      [colId; colEmail]))
    /\ Forall (fun e => isQuery e = true) reads.
Proof.
  exact (create_never_renames quoteIdent acceptColumns stCreate eq_refl).
Defined.

Lemma create_adds_every_declared_column_witness :
  resourcePostgreSQLTableCreate quoteIdent acceptColumns stCreate
  = (Val None,
     mkSt (observed (rd stCreate) "users" [columnOfRow rowId; columnOfRow rowEmail])
          (mkScriptDB None 3 (inl "users") (QueryRows [ScanOk rowId; ScanOk rowEmail] None))
          [Lock;
           Exec (createTableSQL quoteIdent "users");
           Exec (createColumnSQL quoteIdent "users" colId);
           Exec (createColumnSQL quoteIdent "users" colEmail);
           QueryRow tableDescribeQuery "users";
           Query columnsDescribeQuery "users";
           Unlock]).
Proof.
  exact (create_adds_every_declared_column quoteIdent acceptColumns stCreate
           (mkScriptDB None 1 (inl "users") (QueryRows [ScanOk rowId; ScanOk rowEmail] None))
           (mkScriptDB None 3 (inl "users") (QueryRows [ScanOk rowId; ScanOk rowEmail] None))
           _ _ "users" [rowId; rowEmail] None
           eq_refl eq_refl eq_refl eq_refl eq_refl eq_refl eq_refl).
Defined.

Lemma exists_and_read_agree_on_absence_witness :
  resourcePostgreSQLTableRead acceptColumns stNoTable
  = (Val None,
     mkSt (withId (rd stNoTable) EmptyString) dbNoTable
          [RLock; QueryRow tableDescribeQuery "users"; RUnlock]).
Proof.
  exact (proj1 (exists_and_read_agree_on_absence acceptColumns stNoTable) eq_refl).
Defined.

Lemma read_twice_is_read_once_witness :
  fst (resourcePostgreSQLTableRead acceptColumns
         (snd (resourcePostgreSQLTableRead acceptColumns stFound))) = Val None
  /\ rd (snd (resourcePostgreSQLTableRead acceptColumns
                (snd (resourcePostgreSQLTableRead acceptColumns stFound))))
     = rd (snd (resourcePostgreSQLTableRead acceptColumns stFound))
  /\ db (snd (resourcePostgreSQLTableRead acceptColumns
                (snd (resourcePostgreSQLTableRead acceptColumns stFound))))
     = db (snd (resourcePostgreSQLTableRead acceptColumns stFound)).
Proof.
  exact (read_twice_is_read_once acceptColumns stFound "users" [rowId; rowEmail] None
           eq_refl eq_refl eq_refl eq_refl).
Defined.

(** * The earlier revision of the resource

    [src/unnamed/part_000] is the same resource before columns could be
    declared with a default and a nullability and before the update added
    columns: [columns] builds maps of three keys, and the update is the
    rename followed by the read-back, with no test of [d.IsNewResource].
    [renameTableIfNeeded], Exists and Delete read as in the later file and
    are taken from above. *)
Module Earlier.

Section Resource.

Context {DB : Type} {sqlDB : SqlDB DB}.

Set Default Proof Using "Type".

Variable QuoteIdentifier : string -> string.
Variable columnSetError : list Column -> option GoError.

Notation "x <- c1 ;; c2" := (bind c1 (fun x => c2))
  (at level 61, c1 at next level, right associativity).
Notation "c1 ;; c2" := (bind c1 (fun _ => c2))
  (at level 61, right associativity).

(** The map that [columns] builds from one scanned row: the name, the type
    and, when the catalog has one, the length. *)
Definition columnOfRow (r : CatalogRow) : Column :=
  mkColumn (rowName r) (useTypeAlias (rowColumnType r)) (rowMaxLength r) None None.

Fixpoint scanRows (rows : list RowScan) (columns : list Column)
  : list Column * option GoError :=
  match rows with
  | [] => (columns, None)
  | ScanErr err :: _ => (columns, Some err)
  | ScanOk r :: rest => scanRows rest (columns ++ [columnOfRow r])
  end.

Definition columns (tableName : string) : @M DB (list Column * option GoError) :=
  rows <- RunQuery columnsDescribeQuery tableName ;;
  match rows with
  | QueryErr _ => panic "invalid memory address or nil pointer dereference"
  | QueryRows rs _ => ret (scanRows rs [])
  end.

Definition resourcePostgreSQLTableReadImpl : @M DB (option GoError) :=
  tableID <- Id ;;
  r <- QueryRowScan tableDescribeQuery tableID ;;
  match r with
  | inr err =>
      if isErrNoRows err then
        SetId EmptyString ;;
        ret None
      else
        ret (Some (Wrapf ("Error reading TABLE (" +++ tableID +++ "): {{err}}") err))
  | inl tableName =>
      SetName tableName ;;
      SetId tableName ;;
      cr <- columns tableName ;;
      match snd cr with
      | Some err =>
          ret (Some (Wrapf ("Error reading columns TABLE (" +++ tableID +++ "): {{err}}") err))
      | None =>
          serr <- SetColumn columnSetError (fst cr) ;;
          match serr with
          | Some err =>
              ret (Some (Wrapf ("Error setting columns TABLE (" +++ tableID +++ "): {{err}}") err))
          | None => ret None
          end
      end
  end.

Definition resourcePostgreSQLTableRead : @M DB (option GoError) :=
  locked RLock RUnlock resourcePostgreSQLTableReadImpl.

Definition resourcePostgreSQLTableUpdateImpl : @M DB (option GoError) :=
  rerr <- renameTableIfNeeded QuoteIdentifier ;;
  match rerr with
  | Some e => ret (Some e)
  | None => resourcePostgreSQLTableReadImpl
  end.

Definition resourcePostgreSQLTableUpdate : @M DB (option GoError) :=
  locked Lock Unlock resourcePostgreSQLTableUpdateImpl.

Definition resourcePostgreSQLTableCreate : @M DB (option GoError) :=
  locked Lock Unlock (
    tableName <- GetName ;;
    err <- ExecSQL (createTableSQL QuoteIdentifier tableName) ;;
    match err with
    | Some e =>
        ret (Some (Wrapf ("Error creating table " +++ tableName +++ ": {{err}}") e))
    | None =>
        SetId tableName ;;
        resourcePostgreSQLTableUpdateImpl
    end).

(** A read only queries, however it ends. *)
Lemma earlier_readImpl_reads (s : St DB) :
  exists reads : list Event,
    trace (snd (resourcePostgreSQLTableReadImpl s)) = trace s ++ reads
    /\ Forall (fun e => isQuery e = true) reads.
Proof.
  unfold resourcePostgreSQLTableReadImpl, bind, Id, QueryRowScan.
  destruct (dbQueryRow tableDescribeQuery (rdId (rd s)) (db s)) as [db2 [tableName|err]].
  - simpl. unfold columns, bind, RunQuery. simpl.
    exists [QueryRow tableDescribeQuery (rdId (rd s)); Query columnsDescribeQuery tableName].
    destruct (dbQuery columnsDescribeQuery tableName db2) as [db3 [e|rows ie]]; simpl.
    + rewrite <- app_assoc. split; [reflexivity|]. repeat constructor.
    + destruct (scanRows rows []) as [cols [e|]]; simpl.
      * rewrite <- app_assoc. split; [reflexivity|]. repeat constructor.
      * unfold SetColumn. destruct (columnSetError cols); simpl;
          rewrite <- app_assoc; (split; [reflexivity|]); repeat constructor.
  - exists [QueryRow tableDescribeQuery (rdId (rd s))].
    destruct (isErrNoRows err); simpl; (split; [reflexivity|]); repeat constructor.
Qed.

(** The ways [renameTableIfNeeded] can go, the new-resource mark playing no
    part. *)
Lemma renameTableIfNeeded_cases (s : St DB) :
  (rdNameOld (rd s) = rdNameNew (rd s)
   /\ renameTableIfNeeded QuoteIdentifier s = (Val None, s))
  \/ (rdNameOld (rd s) <> rdNameNew (rd s) /\ rdNameNew (rd s) = EmptyString
      /\ renameTableIfNeeded QuoteIdentifier s
         = (Val (Some (ErrorsNew "Error setting table name to an empty string")), s))
  \/ (rdNameOld (rd s) <> rdNameNew (rd s) /\ rdNameNew (rd s) <> EmptyString
      /\ exists (db' : DB) (r : option GoError) (d' : ResourceData),
           renameTableIfNeeded QuoteIdentifier s
           = (Val r, mkSt d' db'
                          (trace s ++ [Exec (renameTableSQL QuoteIdentifier (rdNameOld (rd s))
                                                            (rdNameNew (rd s)))]))).
Proof.
  unfold renameTableIfNeeded, bind, HasChangeName, GetChangeName. simpl.
  destruct (String.eqb_spec (rdNameOld (rd s)) (rdNameNew (rd s))) as [Heq|Hne]; simpl;
    [left; auto|].
  destruct (String.eqb_spec (rdNameNew (rd s)) EmptyString) as [Hempty|Hnonempty]; simpl;
    [right; left; auto|].
  right; right. split; [exact Hne|]. split; [exact Hnonempty|].
  unfold ExecSQL.
  destruct (dbExec (renameTableSQL QuoteIdentifier (rdNameOld (rd s)) (rdNameNew (rd s)))
                   (db s)) as [db' [e|]]; simpl;
    unfold ret, SetId, withRd; simpl; do 3 eexists; reflexivity.
Qed.

(** X17. In the earlier revision the update inside Create is not kept from
    renaming.  Once CREATE TABLE has succeeded, Create of a resource whose
    declared name is not empty and differs from its prior name (the empty
    name, for a resource without prior state) sends, as its next statement,
    the rename from the prior name to the declared one. *)
Theorem earlier_create_renames_from_prior_name (s : St DB) (db1 : DB) :
  rdNameOld (rd s) <> rdNameNew (rd s) ->
  rdNameNew (rd s) <> EmptyString ->
  dbExec (createTableSQL QuoteIdentifier (nameOf (rd s))) (db s) = (db1, None) ->
  exists rest : list Event,
    trace (snd (resourcePostgreSQLTableCreate s))
    = trace s
      ++ Lock :: Exec (createTableSQL QuoteIdentifier (nameOf (rd s)))
              :: Exec (renameTableSQL QuoteIdentifier (rdNameOld (rd s)) (rdNameNew (rd s)))
              :: rest.
Proof.
  intros Hne Hnonempty Hcreate.
  unfold resourcePostgreSQLTableCreate, locked, bind at 1 2, GetName, ExecSQL. simpl.
  rewrite Hcreate. simpl.
  unfold bind at 1, SetId, withRd. simpl.
  unfold resourcePostgreSQLTableUpdateImpl, bind at 1.
  match goal with
  | |- context [renameTableIfNeeded QuoteIdentifier ?s1] =>
      destruct (renameTableIfNeeded_cases s1)
        as [(Heq & _) | [(_ & Hempty & _) | (_ & _ & db' & r & d' & Hrun)]];
      simpl in *; try contradiction; rewrite Hrun
  end.
  destruct r as [e|].
  - eexists. simpl. rewrite <- !app_assoc. simpl. reflexivity.
  - match goal with
    | |- context [resourcePostgreSQLTableReadImpl ?s2] =>
        destruct (earlier_readImpl_reads s2) as (reads & Htr & _);
        destruct (resourcePostgreSQLTableReadImpl s2) as [r2 s3]
    end.
    exists (reads ++ [Unlock]). simpl in *. rewrite Htr.
    rewrite <- !app_assoc. simpl. reflexivity.
Qed.

(** X18. In the earlier revision an update sends no column statement,
    whatever the declared column list: its only statement is the rename,
    when the name changed to a name that is not empty, and every other call
    is a query of the read-back. *)
Theorem earlier_update_sends_no_column_statement (s : St DB) :
  exists (ren : list string) (reads : list Event),
    trace (snd (resourcePostgreSQLTableUpdate s))
    = trace s ++ Lock :: map Exec ren ++ reads ++ [Unlock]
    /\ (ren = []
        \/ (ren = [renameTableSQL QuoteIdentifier (rdNameOld (rd s)) (rdNameNew (rd s))]
            /\ rdNameOld (rd s) <> rdNameNew (rd s)
            /\ rdNameNew (rd s) <> EmptyString))
    /\ Forall (fun e => isQuery e = true) reads.
Proof.
  unfold resourcePostgreSQLTableUpdate, locked, resourcePostgreSQLTableUpdateImpl,
    bind at 1.
  destruct (renameTableIfNeeded_cases (emit Lock s))
    as [(_ & Hrun) | [(_ & _ & Hrun) | (Hne & Hnonempty & db' & r & d' & Hrun)]];
    simpl in *; rewrite Hrun.
  - match goal with
    | |- context [resourcePostgreSQLTableReadImpl ?s2] =>
        destruct (earlier_readImpl_reads s2) as (reads & Htr & Hreads);
        destruct (resourcePostgreSQLTableReadImpl s2) as [r2 s3]
    end.
    exists [], reads. simpl in *. rewrite Htr, <- !app_assoc. simpl.
    split; [reflexivity|]. split; [left; reflexivity|exact Hreads].
  - exists [], []. simpl. rewrite <- !app_assoc. simpl.
    split; [reflexivity|]. split; [left; reflexivity|constructor].
  - destruct r as [e|].
    + exists [renameTableSQL QuoteIdentifier (rdNameOld (rd s)) (rdNameNew (rd s))], [].
      simpl. rewrite <- !app_assoc. simpl.
      split; [reflexivity|]. split; [right; auto|constructor].
    + match goal with
      | |- context [resourcePostgreSQLTableReadImpl ?s2] =>
          destruct (earlier_readImpl_reads s2) as (reads & Htr & Hreads);
          destruct (resourcePostgreSQLTableReadImpl s2) as [r2 s3]
      end.
      exists [renameTableSQL QuoteIdentifier (rdNameOld (rd s)) (rdNameNew (rd s))], reads.
      simpl in *. rewrite Htr, <- !app_assoc. simpl.
      split; [reflexivity|]. split; [right; auto|exact Hreads].
Qed.

End Resource.

(** Create of [users] with two declared columns: after CREATE TABLE the
    earlier revision renames from the empty name, and adds no column. *)
Lemma earlier_create_renames_from_prior_name_witness :
  exists rest : list Event,
    trace (snd (resourcePostgreSQLTableCreate quoteIdent acceptColumns stCreate))
    = Lock :: Exec (createTableSQL quoteIdent "users")
           :: Exec (renameTableSQL quoteIdent EmptyString "users")
           :: rest.
Proof.
  refine (earlier_create_renames_from_prior_name quoteIdent acceptColumns stCreate
            (mkScriptDB None 1 (inl "users") (QueryRows [ScanOk rowId; ScanOk rowEmail] None))
            _ _ eq_refl); simpl; discriminate.
Defined.

Example earlier_create_run :
  trace (snd (resourcePostgreSQLTableCreate quoteIdent acceptColumns stCreate))
  = [Lock;
     Exec (createTableSQL quoteIdent "users");
     Exec (renameTableSQL quoteIdent EmptyString "users");
     QueryRow tableDescribeQuery "users";
     Query columnsDescribeQuery "users";
     Unlock].
Proof. reflexivity. Qed.

End Earlier.
